(** * XELIS contract miner: a shallow embedding of
      [Mineable Token/xelis_contract_miner_sha256.py]

    The development follows the layout of the script: Python values and
    exceptions, the address decoder, the hashing helpers, the shared
    [MiningState], then the two threads of control ([mine_loop] and
    [listen_contract_events]) as an interleaving transition system. *)

From Stdlib Require Import ZArith List String Ascii Bool Lia.
From Stdlib.Strings Require Import Byte.
From Stdlib Require Import QArith DecimalString DecimalPos DecimalZ.
Import ListNotations.

Local Open Scope Z_scope.

(** ** Python exceptions and fallible computations *)

Inductive PyExc : Type :=
| ValueError          (* tuple unpacking, str.index, bytes(...) *)
| TypeError           (* [in] / subscript on a value that does not support it *)
| KeyError
| AttributeError      (* [.get] on a value that is not a dict *)
| OverflowError       (* int.to_bytes *)
| StructError         (* struct.pack *)
| ZeroDivisionError
| RuntimeError.       (* transport and RPC failures *)

Inductive outcome (A : Type) : Type :=
| Ok (a : A)
| Raise (e : PyExc).
Arguments Ok {A} a.
Arguments Raise {A} e.

Definition bind {A B : Type} (m : outcome A) (k : A -> outcome B) : outcome B :=
  match m with
  | Ok a => k a
  | Raise e => Raise e
  end.

Notation "x <- m ;; k" := (bind m (fun x => k))
  (at level 61, m at next level, right associativity).

Fixpoint mapM {A B : Type} (f : A -> outcome B) (l : list A) : outcome (list B) :=
  match l with
  | [] => Ok []
  | a :: t => b <- f a ;; bs <- mapM f t ;; Ok (b :: bs)
  end.

(** ** Bytes and integer encodings *)

Definition bytes : Type := list byte.

Definition Z_of_byte (b : byte) : Z := Z.of_N (Byte.to_N b).

Definition byte_of_Z (z : Z) : byte :=
  match Byte.of_N (Z.to_N (z mod 256)) with
  | Some b => b
  | None => x00
  end.

(** The [len] low-order base-256 digits of [n], least significant first. *)
Fixpoint le_bytes (len : nat) (n : Z) : bytes :=
  match len with
  | O => []
  | S k => byte_of_Z n :: le_bytes k (Z.shiftr n 8)
  end.

(** [struct.pack("<Q", n)]: raises [struct.error] outside [0, 2^64). *)
Definition struct_pack_Q (n : Z) : outcome bytes :=
  if (0 <=? n) && (n <? 2 ^ 64) then Ok (le_bytes 8 n) else Raise StructError.

(** [n.to_bytes(len, "little")]: raises [OverflowError] on a negative
    integer or one too big for [len] bytes. *)
Definition int_to_bytes_little (n : Z) (len : nat) : outcome bytes :=
  if n <? 0 then Raise OverflowError
  else if n <? 2 ^ (8 * Z.of_nat len) then Ok (le_bytes len n)
  else Raise OverflowError.

(** [int.from_bytes(b)]: the byte order defaults to ["big"]. *)
Definition int_from_bytes (b : bytes) : Z :=
  fold_left (fun acc x => acc * 256 + Z_of_byte x) b 0.

(** [bytes(l)] for a list of integers: every item must be in [range(256)]. *)
Definition bytes_of_ints (l : list Z) : outcome bytes :=
  mapM (fun v => if (0 <=? v) && (v <? 256) then Ok (byte_of_Z v)
                 else Raise ValueError) l.

(** The value a byte string denotes when read least significant byte
    first.  It is used in statements only, to say what "little-endian"
    means; no embedded function calls it. *)
Fixpoint little_endian_value (b : bytes) : Z :=
  match b with
  | [] => 0
  | x :: t => Z_of_byte x + 256 * little_endian_value t
  end.

(** Python's [a // b] on integers. *)
Definition py_floordiv (a b : Z) : outcome Z :=
  if b =? 0 then Raise ZeroDivisionError else Ok (a / b).

(** ** Strings *)

(** A [str] is kept as its UTF-8 bytes.  The script only looks for ASCII
    characters and ASCII substrings, for which searching bytes and
    searching characters agree. *)

(** [needle in hay] for two [str]. *)
Fixpoint str_in (needle hay : string) : bool :=
  String.prefix needle hay ||
  match hay with
  | EmptyString => false
  | String _ t => str_in needle t
  end.

(** [s.index(c)] for a one-character [c]. *)
Fixpoint str_index (c : ascii) (s : string) : outcome Z :=
  match s with
  | EmptyString => Raise ValueError
  | String d t => if Ascii.eqb c d then Ok 0 else i <- str_index c t ;; Ok (i + 1)
  end.

(** [s.split(sep)] for a one-character separator; [cur] holds the
    characters of the current field, last one first. *)
Fixpoint split_on (sep : ascii) (cur : list ascii) (s : string) : list string :=
  match s with
  | EmptyString => [string_of_list_ascii (rev cur)]
  | String c t =>
      if Ascii.eqb c sep
      then string_of_list_ascii (rev cur) :: split_on sep [] t
      else split_on sep (c :: cur) t
  end.

Definition str_split (sep : ascii) (s : string) : list string := split_on sep [] s.

(** [str(n)] for an [int]. *)
Definition str_of_int (n : Z) : string := NilZero.string_of_int (Z.to_int n).

(** ** Address decoding *)

Definition charset : string := "qpzry9x8gf2tvdw0s3jn54khce6mua7l".

(** The inner [while bits >= 8] loop; it runs at most [bits / 8] times, so
    [fuel = bits] is always enough. *)
Fixpoint drain (fuel : nat) (acc bits : Z) (result : list Z) : Z * list Z :=
  match fuel with
  | O => (bits, result)
  | S fuel' =>
      if 8 <=? bits then
        let bits := bits - 8 in
        drain fuel' acc bits (result ++ [Z.land (Z.shiftr acc bits) 255])
      else (bits, result)
  end.

(** The [for value in data_5bit] loop. *)
Fixpoint regroup (data_5bit : list Z) (acc bits : Z) (result : list Z) : list Z :=
  match data_5bit with
  | [] => result
  | value :: rest =>
      let acc := Z.lor (Z.shiftl acc 5) value in
      let bits := bits + 5 in
      let '(bits, result) := drain (Z.to_nat bits) acc bits result in
      regroup rest acc bits result
  end.

Definition decode_xet_address (address : string) : outcome (list Z) :=
  match str_split ":"%char address with
  | [_; data_part] =>
      data_5bit <- mapM (fun c => str_index c charset) (list_ascii_of_string data_part) ;;
      let result := regroup data_5bit 0 0 [] in
      Ok (0 :: firstn 33 result)
  | _ => Raise ValueError
  end.

(** [address_bytes = bytes(decode_xet_address(args.address))] in [__main__]. *)
Definition address_bytes_of (address : string) : outcome bytes :=
  l <- decode_xet_address address ;; bytes_of_ints l.

(** ** Difficulty *)

Definition MAX_TARGET : Z := Z.shiftl 1 256 - 1.

Definition meets_difficulty (final_hash : bytes) (difficulty : Z) : outcome bool :=
  let hv := int_from_bytes final_hash in
  target <- py_floordiv MAX_TARGET difficulty ;;
  Ok (hv <=? target).

(** ** Python values, as [json] decoding produces them *)

#[warnings="-register-all"]
Inductive pyval : Type :=
| PyNone
| PyBool (b : bool)
| PyInt (n : Z)
| PyFloat (q : Q)                       (* a finite float, by its exact value *)
| PyNonFinite                           (* nan, inf, -inf *)
| PyStr (s : string)
| PyList (l : list pyval)
| PyDict (d : list (string * pyval)).   (* keys in insertion order *)

Fixpoint dict_get (d : list (string * pyval)) (key : string) : option pyval :=
  match d with
  | [] => None
  | (k, v) :: t => if String.eqb k key then Some v else dict_get t key
  end.

(** [v == s] for a [str] [s]. *)
Definition py_eq_str (v : pyval) (s : string) : bool :=
  match v with
  | PyStr t => String.eqb t s
  | _ => false
  end.

(** [v == n] for an [int] [n]: [True == 1] and [1.0 == 1] hold in Python. *)
Definition py_eq_int (v : pyval) (n : Z) : bool :=
  match v with
  | PyInt m => m =? n
  | PyBool b => (if b then 1 else 0) =? n
  | PyFloat q => Qeq_bool q (inject_Z n)
  | _ => false
  end.

(** [key in container]. *)
Definition py_in (key : string) (container : pyval) : outcome bool :=
  match container with
  | PyDict d => Ok (match dict_get d key with Some _ => true | None => false end)
  | PyStr s => Ok (str_in key s)
  | PyList l => Ok (existsb (fun v => py_eq_str v key) l)
  | _ => Raise TypeError
  end.

(** [container[key]] for a [str] key. *)
Definition py_subscript (container : pyval) (key : string) : outcome pyval :=
  match container with
  | PyDict d => match dict_get d key with Some v => Ok v | None => Raise KeyError end
  | _ => Raise TypeError
  end.

(** [container.get(key)]. *)
Definition py_get (container : pyval) (key : string) : outcome pyval :=
  match container with
  | PyDict d => Ok (match dict_get d key with Some v => v | None => PyNone end)
  | _ => Raise AttributeError
  end.

Definition isinstance_bool (v : pyval) : bool :=
  match v with PyBool _ => true | _ => false end.

Definition isinstance_dict (v : pyval) : bool :=
  match v with PyDict _ => true | _ => false end.

(** [bool] is a subclass of [int]. *)
Definition isinstance_int (v : pyval) : bool :=
  match v with PyInt _ | PyBool _ => true | _ => false end.

(** The integer an [int] instance hashes and compares as. *)
Definition int_value (v : pyval) : Z :=
  match v with
  | PyInt n => n
  | PyBool true => 1
  | _ => 0
  end.

(** [f"{v}"] for an [int] instance. *)
Definition py_format (v : pyval) : string :=
  match v with
  | PyBool true => "True"
  | PyBool false => "False"
  | _ => str_of_int (int_value v)
  end.

(** ** Contract return codes *)

Definition error_codes : list (Z * string) :=
  [ (0, "✅ Success - Block mined!");
    (1, "⚠️ Max supply reached - Mining complete");
    (2, "❌ Timestamp out of bounds (must be: now-30 <= ts <= now+5)");
    (3, "❌ Timestamp is stale (ts <= last_time)");
    (4, "❌ PoW verification failed (hash doesn't meet difficulty)") ]%string.

Fixpoint codes_get (codes : list (Z * string)) (key : Z) (default : string) : string :=
  match codes with
  | [] => default
  | (k, msg) :: t => if k =? key then msg else codes_get t key default
  end.

(** The [if]/[elif] chain that locates the return code; [None] is the
    final [else: return None]. *)
Definition find_return_code (result : pyval) : outcome (option pyval) :=
  has_tx <- py_in "tx" result ;;
  c1 <- (if has_tx then tx <- py_subscript result "tx" ;; py_in "result" tx
         else Ok false) ;;
  if c1 then
    tx <- py_subscript result "tx" ;;
    return_code <- py_subscript tx "result" ;;
    Ok (Some return_code)
  else
    c2 <- py_in "result" result ;;
    if c2 then
      return_code <- py_subscript result "result" ;;
      Ok (Some return_code)
    else
      c3 <- py_in "return_value" result ;;
      if c3 then
        return_code <- py_subscript result "return_value" ;;
        Ok (Some return_code)
      else Ok None.

Definition parse_contract_error (result : pyval) : option string :=
  if isinstance_dict result then
    match find_return_code result with
    | Ok (Some return_code) =>
        if isinstance_int return_code then
          Some (codes_get error_codes (int_value return_code)
                  ("❓ Unknown return code: " ++ py_format return_code))
        else None
    | Ok None => None
    | Raise _ => None                   (* [except: pass] *)
    end
  else None.

(** ** Clock and randomness *)

(** [time.time()] is read as a rational number of seconds; the rounding of
    float arithmetic is not modelled. *)
Definition HASHRATE_REPORT_INTERVAL : Q := inject_Z 10.

(** [int(t * 1000)]: [int] truncates towards zero. *)
Definition millis (t : Q) : Z :=
  let x := Qmult t (inject_Z 1000) in
  Z.quot (Qnum x) (Z.pos (Qden x)).

Definition Qgtb (a b : Q) : bool := negb (Qle_bool a b).

(** [random.randint(a, b)] returns [a + randbelow(b - a + 1)]; the
    generator's draw is the argument [entropy]. *)
Definition randint (a b : Z) (entropy : Z) : Z := a + entropy mod (b - a + 1).

(** ** Shared state: [class MiningState] *)

Record MiningState : Type := {
  lock : bool;                          (* [true] while a thread is inside [with state.lock] *)
  restart_event : bool;
  awaiting_confirmation : bool;
  block_number : Z;
  difficulty : Z;
  prev_hash : bytes;
  ts : Z }.

Definition set_lock (b : bool) (s : MiningState) : MiningState :=
  {| lock := b; restart_event := restart_event s;
     awaiting_confirmation := awaiting_confirmation s;
     block_number := block_number s; difficulty := difficulty s;
     prev_hash := prev_hash s; ts := ts s |}.

Definition set_restart_event (b : bool) (s : MiningState) : MiningState :=
  {| lock := lock s; restart_event := b;
     awaiting_confirmation := awaiting_confirmation s;
     block_number := block_number s; difficulty := difficulty s;
     prev_hash := prev_hash s; ts := ts s |}.

Definition set_awaiting_confirmation (b : bool) (s : MiningState) : MiningState :=
  {| lock := lock s; restart_event := restart_event s;
     awaiting_confirmation := b;
     block_number := block_number s; difficulty := difficulty s;
     prev_hash := prev_hash s; ts := ts s |}.

Definition set_chain (b d : Z) (p : bytes) (s : MiningState) : MiningState :=
  {| lock := lock s; restart_event := restart_event s;
     awaiting_confirmation := awaiting_confirmation s;
     block_number := b; difficulty := d; prev_hash := p; ts := ts s |}.

Definition set_ts (t : Z) (s : MiningState) : MiningState :=
  {| lock := lock s; restart_event := restart_event s;
     awaiting_confirmation := awaiting_confirmation s;
     block_number := block_number s; difficulty := difficulty s;
     prev_hash := prev_hash s; ts := t |}.

(** [state = MiningState()], constructed at time [t0]. *)
Definition initial_state (t0 : Q) : MiningState :=
  {| lock := false; restart_event := true; awaiting_confirmation := false;
     block_number := 0; difficulty := 1; prev_hash := repeat x00 32;
     ts := millis t0 |}.

(** ** The miner thread: [mine_loop] *)

(** Local variables of [mine_loop].  A variable that Python has not bound
    yet holds a default here; none is read before its first assignment. *)
Record Locals : Type := {
  address_bytes : bytes;
  l_block_number : Z;
  l_difficulty : Z;
  l_prev_hash : bytes;
  current_ts : Z;
  header_hash : bytes;
  nonce : Z;
  start_time : Q;
  last_report : Q;
  local_hashes : Z }.

(** Control points of [mine_loop], by source line. *)
Inductive MinerPc : Type :=
| AtWait                                (* 235: [state.restart_event.wait()] *)
| AtAcquire                             (* 239: [with state.lock] *)
| AtCheck                               (* 240: [if state.awaiting_confirmation], lock held *)
| AtSync                                (* 242-243: [sync_chain_state], lock held *)
| AtStamp                               (* 245-251: timestamp, clear, snapshot, lock held *)
| AtHeader                              (* 253-268: header hash and initial nonce *)
| AtHotTest                             (* 276: [while not state.restart_event.is_set()] *)
| AtHash                                (* 278-283 and 313: one hash attempt *)
| AtSubmit                              (* 284-302: [submit_solution] and its result *)
| AtSetAwaiting                         (* 305-306 *)
| AtClear                               (* 309: [state.restart_event.clear()] *)
| AtBlocked                             (* 310: [state.restart_event.wait()] *)
| AtReport                              (* 316-323: hashrate report *)
| Exited                                (* [sys.exit(0)] raised [SystemExit] in this thread *)
| Crashed (e : PyExc).                  (* an uncaught exception ended this thread *)

(** What the environment supplies to one step of the miner. *)
Record MinerInput : Type := {
  in_time : Q;                          (* the reading of [time.time()] *)
  in_sync : outcome (Z * Z * bytes);    (* what [sync_chain_state] returns or raises *)
  in_random : Z;                        (* the draw behind [random.randint] *)
  in_submit : outcome pyval }.          (* what [submit_solution] returns or raises *)

(** ** The main thread: [listen_contract_events] *)

Inductive ListenerPc : Type :=
| LConnect                              (* 332-347: connect and subscribe *)
| LRecv                                 (* 350: [await ws.recv()] *)
| LSetEvent                             (* 370: [state.restart_event.set()] *)
| LBackoff                              (* 372-375: [await asyncio.sleep(5)] *)
| LStopped.                             (* [KeyboardInterrupt] ended [asyncio.run] and the process *)

Inductive ListenerInput : Type :=
| Connected                             (* connect and send succeeded *)
| Message (data : pyval)                (* [json.loads(await ws.recv())] *)
| Failure                               (* connect, send, recv or loads raised an [Exception] *)
| Tick                                  (* a step that needs nothing from outside *)
| KeyboardInterrupt.

Inductive Reaction : Type := Ignore | Restart.

(** ** Both threads *)

Record World : Type := {
  state : MiningState;
  miner_pc : MinerPc;
  locals : Locals;
  listener_pc : ListenerPc;
  submissions : list (Z * Z) }.         (* arguments of every [submit_solution] call, oldest first *)

Definition with_state (s : MiningState) (w : World) : World :=
  {| state := s; miner_pc := miner_pc w; locals := locals w;
     listener_pc := listener_pc w; submissions := submissions w |}.

Definition with_locals (l : Locals) (w : World) : World :=
  {| state := state w; miner_pc := miner_pc w; locals := l;
     listener_pc := listener_pc w; submissions := submissions w |}.

Definition goto (pc : MinerPc) (w : World) : World :=
  {| state := state w; miner_pc := pc; locals := locals w;
     listener_pc := listener_pc w; submissions := submissions w |}.

Definition listener_goto (pc : ListenerPc) (w : World) : World :=
  {| state := state w; miner_pc := miner_pc w; locals := locals w;
     listener_pc := pc; submissions := submissions w |}.

Definition log_submission (call : Z * Z) (w : World) : World :=
  {| state := state w; miner_pc := miner_pc w; locals := locals w;
     listener_pc := listener_pc w; submissions := submissions w ++ [call] |}.

(** The process as [__main__] starts it: [state] was built at [t0],
    [mine_loop] reads the clock at [t1]. *)
Definition initial_world (address : bytes) (t0 t1 : Q) : World :=
  {| state := initial_state t0;
     miner_pc := AtWait;
     locals := {| address_bytes := address; l_block_number := 0; l_difficulty := 0;
                  l_prev_hash := []; current_ts := 0; header_hash := []; nonce := 0;
                  start_time := t1; last_report := t1; local_hashes := 0 |};
     listener_pc := LConnect;
     submissions := [] |}.

(** The process ends when the main thread does; the miner is a daemon
    thread and is not waited for. *)
Definition process_exited (w : World) : bool :=
  match listener_pc w with LStopped => true | _ => false end.

Definition snapshot (s : MiningState) (l : Locals) : Locals :=
  {| address_bytes := address_bytes l;
     l_block_number := block_number s; l_difficulty := difficulty s;
     l_prev_hash := prev_hash s; current_ts := ts s;
     header_hash := header_hash l; nonce := nonce l;
     start_time := start_time l; last_report := last_report l;
     local_hashes := local_hashes l |}.

Definition begin_search (h : bytes) (n : Z) (t : Q) (l : Locals) : Locals :=
  {| address_bytes := address_bytes l;
     l_block_number := l_block_number l; l_difficulty := l_difficulty l;
     l_prev_hash := l_prev_hash l; current_ts := current_ts l;
     header_hash := h; nonce := n;
     start_time := t; last_report := t; local_hashes := 0 |}.

Definition set_local_hashes (n : Z) (l : Locals) : Locals :=
  {| address_bytes := address_bytes l;
     l_block_number := l_block_number l; l_difficulty := l_difficulty l;
     l_prev_hash := l_prev_hash l; current_ts := current_ts l;
     header_hash := header_hash l; nonce := nonce l;
     start_time := start_time l; last_report := last_report l;
     local_hashes := n |}.

Definition set_nonce (n : Z) (l : Locals) : Locals :=
  {| address_bytes := address_bytes l;
     l_block_number := l_block_number l; l_difficulty := l_difficulty l;
     l_prev_hash := l_prev_hash l; current_ts := current_ts l;
     header_hash := header_hash l; nonce := n;
     start_time := start_time l; last_report := last_report l;
     local_hashes := local_hashes l |}.

Definition set_last_report (t : Q) (l : Locals) : Locals :=
  {| address_bytes := address_bytes l;
     l_block_number := l_block_number l; l_difficulty := l_difficulty l;
     l_prev_hash := l_prev_hash l; current_ts := current_ts l;
     header_hash := header_hash l; nonce := nonce l;
     start_time := start_time l; last_report := t;
     local_hashes := local_hashes l |}.

Inductive Event : Type :=
| MinerStep (i : MinerInput)
| ListenerStep (i : ListenerInput).

Definition CONTRACT_EVENT_ID : Z := 1.

Section Miner.

(** [blake3.blake3(data).digest()] and [hashlib.sha3_256(data).digest()]
    are library code, and the contract hash is configuration. *)
Variable blake3_digest : bytes -> bytes.
Variable sha3_256_digest : bytes -> bytes.
Variable CONTRACT_HASH : string.

Definition sha3_256d (data : bytes) : bytes :=
  sha3_256_digest (sha3_256_digest data).

Definition generate_header_hash
    (block_number : Z) (miner : bytes) (difficulty : Z) (prev_hash : bytes) (ts : Z)
    : outcome bytes :=
  let header := [] in
  packed <- struct_pack_Q block_number ;;
  let header := header ++ packed in
  let header := header ++ miner in
  packed <- int_to_bytes_little difficulty 32 ;;
  let header := header ++ packed in
  let header := header ++ prev_hash in
  packed <- struct_pack_Q ts ;;
  let header := header ++ packed in
  Ok (blake3_digest header).

(** Lines 278-279 of [mine_loop]: the hash of one attempt. *)
Definition compute_final_hash (header_hash : bytes) (nonce : Z) : outcome bytes :=
  packed <- struct_pack_Q nonce ;;
  let data := header_hash ++ packed in
  Ok (sha3_256d data).

(** [if error_msg and "Max supply reached" in error_msg]. *)
Definition supply_exhausted (error_msg : option string) : bool :=
  match error_msg with
  | Some msg => negb (String.eqb msg "") && str_in "Max supply reached" msg
  | None => false
  end.

(** One step of the miner thread; [None] when the thread cannot move
    (blocked on the event or the lock, or ended). *)
Definition miner_step (i : MinerInput) (w : World) : option World :=
  let s := state w in
  let l := locals w in
  match miner_pc w with
  | AtWait =>
      if restart_event s then Some (goto AtAcquire w) else None
  | AtAcquire =>
      if lock s then None
      else Some (goto AtCheck (with_state (set_lock true s) w))
  | AtCheck =>
      if awaiting_confirmation s
      then Some (goto AtWait (with_state (set_lock false s) w))     (* [continue] *)
      else Some (goto AtSync w)
  | AtSync =>
      match in_sync i with
      | Ok (b, d, p) => Some (goto AtStamp (with_state (set_chain b d p s) w))
      | Raise _ =>                                                   (* [sleep(5); continue] *)
          Some (goto AtWait (with_state (set_lock false s) w))
      end
  | AtStamp =>
      let s := set_ts (millis (in_time i)) s in
      let s := set_restart_event false s in
      let l := snapshot s l in
      Some (goto AtHeader (with_locals l (with_state (set_lock false s) w)))
  | AtHeader =>
      match generate_header_hash (l_block_number l) (address_bytes l)
              (l_difficulty l) (l_prev_hash l) (current_ts l) with
      | Ok h =>
          let n := randint 0 (2 ^ 32) (in_random i) in
          Some (goto AtHotTest (with_locals (begin_search h n (in_time i) l) w))
      | Raise _ => Some (goto AtWait w)                              (* [sleep(5); continue] *)
      end
  | AtHotTest =>
      if restart_event s then Some (goto AtWait w) else Some (goto AtHash w)
  | AtHash =>
      match compute_final_hash (header_hash l) (nonce l) with
      | Raise e => Some (goto (Crashed e) w)
      | Ok final_hash =>
          let l := set_local_hashes (local_hashes l + 1) l in
          match meets_difficulty final_hash (l_difficulty l) with
          | Raise e => Some (goto (Crashed e) (with_locals l w))
          | Ok true => Some (goto AtSubmit (with_locals l w))
          | Ok false =>
              Some (goto AtReport (with_locals (set_nonce (nonce l + 1) l) w))
          end
      end
  | AtSubmit =>
      let w := log_submission (nonce l, current_ts l) w in
      match in_submit i with
      | Ok res =>
          let error_msg := parse_contract_error res in
          if supply_exhausted error_msg
          then Some (goto Exited w)
          else Some (goto AtSetAwaiting w)
      | Raise _ => Some (goto AtSetAwaiting w)
      end
  | AtSetAwaiting =>
      if lock s then None
      else Some (goto AtClear (with_state (set_awaiting_confirmation true s) w))
  | AtClear =>
      Some (goto AtBlocked (with_state (set_restart_event false s) w))
  | AtBlocked =>
      if restart_event s then Some (goto AtWait w) else None      (* [break] *)
  | AtReport =>
      if local_hashes l mod 100000 =? 0 then
        let current_time := in_time i in
        if Qgtb (current_time - last_report l)%Q HASHRATE_REPORT_INTERVAL then
          let elapsed := (current_time - start_time l)%Q in
          if Qeq_bool elapsed (inject_Z 0)
          then Some (goto (Crashed ZeroDivisionError) w)           (* [local_hashes / elapsed] *)
          else Some (goto AtHotTest
                       (with_state (set_restart_event true s)
                          (with_locals (set_last_report current_time l) w)))
        else Some (goto AtHotTest w)
      else Some (goto AtHotTest w)
  | Exited => None
  | Crashed _ => None
  end.

(** The body of the receive loop, lines 351-366, up to the decision to
    restart mining. *)
Definition handle_message (data : pyval) : outcome Reaction :=
  has_result <- py_in "result" data ;;
  is_ack <- (if has_result
             then r <- py_subscript data "result" ;; Ok (isinstance_bool r)
             else Ok false) ;;
  if is_ack then Ok Ignore                                          (* [continue] *)
  else
    has_result <- py_in "result" data ;;
    is_envelope <- (if has_result
                    then r <- py_subscript data "result" ;; Ok (isinstance_dict r)
                    else Ok false) ;;
    if is_envelope then
      result <- py_subscript data "result" ;;
      has_event <- py_in "event" result ;;
      event_is_dict <- (if has_event
                        then e <- py_subscript result "event" ;; Ok (isinstance_dict e)
                        else Ok false) ;;
      if event_is_dict then
        event <- py_subscript result "event" ;;
        has_contract_event <- py_in "contract_event" event ;;
        if has_contract_event then
          event_info <- py_subscript event "contract_event" ;;
          contract <- py_get event_info "contract" ;;
          if py_eq_str contract CONTRACT_HASH then
            id <- py_get event_info "id" ;;
            if py_eq_int id CONTRACT_EVENT_ID then Ok Restart else Ok Ignore
          else Ok Ignore
        else Ok Ignore
      else Ok Ignore
    else Ok Ignore.

(** One step of the listener; [None] when the input does not fit the
    control point or the lock is taken. *)
Definition listener_step (i : ListenerInput) (w : World) : option World :=
  let s := state w in
  match listener_pc w, i with
  | LStopped, _ => None
  | _, KeyboardInterrupt => Some (listener_goto LStopped w)
  | LConnect, Connected => Some (listener_goto LRecv w)
  | LConnect, Failure => Some (listener_goto LBackoff w)
  | LBackoff, Tick => Some (listener_goto LConnect w)
  | LRecv, Failure => Some (listener_goto LBackoff w)
  | LRecv, Message data =>
      match handle_message data with
      | Ok Ignore => Some w
      | Ok Restart =>
          if lock s then None
          else Some (listener_goto LSetEvent
                       (with_state (set_awaiting_confirmation false s) w))
      | Raise _ => Some (listener_goto LBackoff w)
      end
  | LSetEvent, Tick =>
      Some (listener_goto LRecv (with_state (set_restart_event true s) w))
  | _, _ => None
  end.

(** Interleaving: each event lets one thread take one step. *)
Definition step (e : Event) (w : World) : option World :=
  if process_exited w then None
  else match e with
       | MinerStep i => miner_step i w
       | ListenerStep i => listener_step i w
       end.

Fixpoint run (es : list Event) (w : World) : option World :=
  match es with
  | [] => Some w
  | e :: rest =>
      match step e w with
      | Some w' => run rest w'
      | None => None
      end
  end.

End Miner.

(** ** RPC helpers *)

Definition NODE_RPC_URL : string := "https://testnet-node.xelis.io/json_rpc".
Definition ENTRY_ID_SUBMIT : Z := 5.

Section Rpc.

(** [post url payload] stands for lines 89-91: [session.post], then
    [raise_for_status], then [r.json()]; it raises when any of them does.
    [int] and [bytes.fromhex] are library code. *)
Variable post : string -> pyval -> outcome pyval.
Variable RPC_URL : string.
Variable CONTRACT_HASH : string.
Variable MAX_GAS : Z.
Variable py_int : pyval -> outcome Z.
Variable bytes_fromhex : pyval -> outcome bytes.

Definition rpc_call (url method : string) (params : pyval) : outcome pyval :=
  let payload :=
    PyDict [("jsonrpc", PyStr "2.0"); ("method", PyStr method); ("id", PyInt 1);
            ("params", params); ("broadcast", PyBool true)]%string in
  j <- post url payload ;;
  has_error <- py_in "error" j ;;
  if has_error then
    _ <- py_subscript j "error" ;;
    Raise RuntimeError
  else py_subscript j "result".

Definition get_contract_data (contract_hash key : string) : outcome pyval :=
  rpc_call NODE_RPC_URL "get_contract_data"
    (PyDict [("contract", PyStr contract_hash);
             ("key", PyDict [("type", PyStr "primitive");
                             ("value", PyDict [("type", PyStr "string");
                                               ("value", PyStr key)])])]%string).

(** The ["parameters"] list of [submit_solution]. *)
Definition invoke_parameters (nonce ts : Z) : pyval :=
  PyList [PyDict [("type", PyStr "primitive");
                  ("value", PyDict [("type", PyStr "u64");
                                    ("value", PyStr (str_of_int nonce))])];
          PyDict [("type", PyStr "primitive");
                  ("value", PyDict [("type", PyStr "u64");
                                    ("value", PyStr (str_of_int ts))])]]%string.

Definition submit_solution (nonce ts : Z) : outcome pyval :=
  result <- rpc_call RPC_URL "build_transaction"
              (PyDict [("invoke_contract",
                        PyDict [("contract", PyStr CONTRACT_HASH);
                                ("max_gas", PyInt MAX_GAS);
                                ("entry_id", PyInt ENTRY_ID_SUBMIT);
                                ("parameters", invoke_parameters nonce ts);
                                ("permission", PyStr "all")]);
                       ("broadcast", PyBool true)]%string) ;;
  Ok result.

(** [reply["data"]["value"]["value"]]. *)
Definition data_value_value (reply : pyval) : outcome pyval :=
  data <- py_subscript reply "data" ;;
  value <- py_subscript data "value" ;;
  py_subscript value "value".

Definition sync_chain_state (contract : string) : outcome (Z * Z * bytes) :=
  reply <- get_contract_data contract "block" ;;
  v <- data_value_value reply ;;
  block <- py_int v ;;
  reply <- get_contract_data contract "diff" ;;
  v <- data_value_value reply ;;
  difficulty <- py_int v ;;
  reply <- get_contract_data contract "prev_hash" ;;
  v <- data_value_value reply ;;
  prev_hash_hex <- py_subscript v "value" ;;
  prev_hash <- bytes_fromhex prev_hash_hex ;;
  Ok (block, difficulty, prev_hash).

End Rpc.

(** ** Fixtures *)

(** The address in the script's [--help] text. *)
Definition example_address : string :=
  "xet:4cka26kpvq6nj93lguycywn8flccvrf537dzqa0x0jyhawddepfsqtka05w".

(** Stand-ins for the two library digests, used to run the model in
    examples: with [zero_digest] every attempt meets any positive
    difficulty, with [ones_digest] no attempt meets a difficulty above 1. *)
Definition zero_digest (_ : bytes) : bytes := repeat x00 32.
Definition ones_digest (_ : bytes) : bytes := repeat xff 32.

(** A reply of the wallet that carries the supply-exhausted code. *)
Definition exhausted_reply : pyval := PyDict [("result"%string, PyInt 1)].

(** A contract that reports height 100, difficulty 1000 and an all-zero
    previous hash, a clock that stands still, and a wallet that answers
    [reply]. *)
Definition scenario_input (reply : outcome pyval) : MinerInput :=
  {| in_time := inject_Z 0;
     in_sync := Ok (100, 1000, repeat x00 32);
     in_random := 7;
     in_submit := reply |}.

Definition scenario_world : World :=
  initial_world (repeat x01 34) (inject_Z 0) (inject_Z 0).

(** The miner runs alone from start-up to the first hash attempt:
    wait, acquire, check, sync, stamp, header, loop test. *)
Definition to_first_attempt : list Event :=
  repeat (MinerStep (scenario_input (Raise RuntimeError))) 7.

(** [k] further attempts that all miss: loop test is already passed, so
    each round is attempt, report check, loop test. *)
Definition missed_rounds (k : nat) : list Event :=
  List.concat (repeat (repeat (MinerStep (scenario_input (Raise RuntimeError))) 3) k).

(** The listener fails to connect and backs off, [n] times over. *)
Definition reconnect_rounds (n : nat) : list Event :=
  List.concat (repeat [ListenerStep Failure; ListenerStep Tick] n).

(** An event envelope as the node pushes it for [contract_hash]. *)
Definition target_event (contract_hash : string) : pyval :=
  PyDict [("result",
           PyDict [("event",
                    PyDict [("contract_event",
                             PyDict [("contract", PyStr contract_hash);
                                     ("id", PyInt 1)])])])]%string.

(** An event envelope whose ["contract_event"] entry is a number. *)
Definition malformed_envelope : pyval :=
  PyDict [("result",
           PyDict [("event", PyDict [("contract_event", PyInt 3)])])]%string.

(** Inputs of the miner for a refresh that raises, for one that reports
    a negative difficulty, and for one that reports difficulty zero. *)
Definition failing_sync_input : MinerInput :=
  {| in_time := inject_Z 0; in_sync := Raise RuntimeError;
     in_random := 7; in_submit := Raise RuntimeError |}.

Definition unfit_sync_input : MinerInput :=
  {| in_time := inject_Z 0; in_sync := Ok (100, -1, repeat x00 32);
     in_random := 7; in_submit := Raise RuntimeError |}.

Definition zero_difficulty_input : MinerInput :=
  {| in_time := inject_Z 0; in_sync := Ok (100, 0, repeat x00 32);
     in_random := 7; in_submit := Raise RuntimeError |}.

(** Stand-ins for the node and for the two library conversions: a node
    that answers every query with the same well-formed reply, one that
    answers with an error next to a result, [int] giving 5 and
    [bytes.fromhex] giving the empty byte string. *)
Definition steady_node (_ : string) (_ : pyval) : outcome pyval :=
  Ok (PyDict [("result",
               PyDict [("data",
                        PyDict [("value",
                                 PyDict [("value",
                                          PyDict [("value", PyStr "00")])])])])]%string).

Definition error_node (_ : string) (_ : pyval) : outcome pyval :=
  Ok (PyDict [("error", PyStr "boom"); ("result", PyInt 1)]%string).

Definition int_stub (_ : pyval) : outcome Z := Ok 5.
Definition fromhex_stub (_ : pyval) : outcome bytes := Ok [].

(** ** Vocabulary of the statements *)

(** The control points of a search cycle: from the refresh of the mining
    parameters to the moment the found solution is about to be flagged. *)
Definition in_search_cycle (pc : MinerPc) : bool :=
  match pc with
  | AtSync | AtStamp | AtHeader | AtHotTest | AtHash | AtReport
  | AtSubmit | AtSetAwaiting => true
  | _ => false
  end.

(** The control points inside the first [with state.lock] block. *)
Definition holds_lock (pc : MinerPc) : bool :=
  match pc with
  | AtCheck | AtSync | AtStamp => true
  | _ => false
  end.

(** The mining parameters and the search state a miner step could touch. *)
Definition search_data (w : World) : Z * Z * bytes * Z * Locals * list (Z * Z) :=
  (block_number (state w), difficulty (state w), prev_hash (state w),
   ts (state w), locals w, submissions w).

(** An event envelope for contract [contract_hash] and event
    [CONTRACT_EVENT_ID]:
    [{"result": {"event": {"contract_event": {"contract": ..., "id": ...}}}}]. *)
Definition is_target_event (contract_hash : string) (data : pyval) : Prop :=
  exists d result event event_info id,
    data = PyDict d /\
    dict_get d "result" = Some (PyDict result) /\
    dict_get result "event" = Some (PyDict event) /\
    dict_get event "contract_event" = Some (PyDict event_info) /\
    dict_get event_info "contract" = Some (PyStr contract_hash) /\
    dict_get event_info "id" = Some id /\
    py_eq_int id CONTRACT_EVENT_ID = true.

(** A list of byte values read most significant first, and a list of
    5-bit values read most significant first. *)
Definition big_endian_ints (l : list Z) : Z :=
  fold_left (fun acc v => acc * 256 + v) l 0.

Definition base32_value (l : list Z) : Z :=
  fold_left (fun acc v => acc * 32 + v) l 0.

(** How many times [c] occurs in [s]. *)
Fixpoint count_char (c : ascii) (s : string) : nat :=
  match s with
  | EmptyString => O
  | String d t => if Ascii.eqb d c then S (count_char c t) else count_char c t
  end.

(** A ["tx"] entry on which the lookup of the return code raises: a
    scalar, or a string or list in which ["result"] occurs. *)
Definition unreadable_tx (tx : pyval) : bool :=
  match tx with
  | PyDict _ => false
  | PyStr s => str_in "result" s
  | PyList l => existsb (fun v => py_eq_str v "result") l
  | _ => true
  end.

(** An event envelope whose ["contract_event"] entry is not an object. *)
Definition malformed_event (data : pyval) : Prop :=
  exists d result event event_info,
    data = PyDict d /\
    dict_get d "result" = Some (PyDict result) /\
    dict_get result "event" = Some (PyDict event) /\
    dict_get event "contract_event" = Some event_info /\
    isinstance_dict event_info = false.

(** JSON [null], booleans and numbers. *)
Definition is_scalar (v : pyval) : bool :=
  match v with
  | PyNone | PyBool _ | PyInt _ | PyFloat _ | PyNonFinite => true
  | _ => false
  end.

(** The miner thread is over. *)
Definition miner_ended (pc : MinerPc) : bool :=
  match pc with
  | Exited | Crashed _ => true
  | _ => false
  end.

(** The miner thread running on its own: one step per input. *)
Fixpoint miner_run (blake3_digest sha3_256_digest : bytes -> bytes)
    (inputs : list MinerInput) (w : World) : option World :=
  match inputs with
  | [] => Some w
  | i :: rest =>
      match miner_step blake3_digest sha3_256_digest i w with
      | Some w' => miner_run blake3_digest sha3_256_digest rest w'
      | None => None
      end
  end.

(** More of what holds in every reachable world: the miner works for
    [address]; inside the hash loop the header digest is the one of the
    snapshot it took; a solution about to be submitted was checked; and
    from the wait to the refresh [restart_event] is still set. *)
Definition template_ready (blake3_digest sha3_256_digest : bytes -> bytes)
    (address : bytes) (w : World) : Prop :=
  let l := locals w in
  address_bytes l = address /\
  match miner_pc w with
  | AtHotTest | AtHash | AtReport =>
      generate_header_hash blake3_digest (l_block_number l) address
        (l_difficulty l) (l_prev_hash l) (current_ts l) = Ok (header_hash l)
  | AtSubmit =>
      generate_header_hash blake3_digest (l_block_number l) address
        (l_difficulty l) (l_prev_hash l) (current_ts l) = Ok (header_hash l) /\
      exists final_hash,
        compute_final_hash sha3_256_digest (header_hash l) (nonce l) = Ok final_hash /\
        meets_difficulty final_hash (l_difficulty l) = Ok true
  | AtAcquire | AtCheck | AtSync | AtStamp => restart_event (state w) = true
  | _ => True
  end.

(** The request body [rpc_call] posts, and the one [get_contract_data]
    makes it post for [key]. *)
Definition rpc_payload (method : string) (params : pyval) : pyval :=
  PyDict [("jsonrpc", PyStr "2.0"); ("method", PyStr method); ("id", PyInt 1);
          ("params", params); ("broadcast", PyBool true)]%string.

Definition contract_data_payload (contract_hash key : string) : pyval :=
  rpc_payload "get_contract_data"
    (PyDict [("contract", PyStr contract_hash);
             ("key", PyDict [("type", PyStr "primitive");
                             ("value", PyDict [("type", PyStr "string");
                                               ("value", PyStr key)])])]%string).

(** [v[k1][k2]...] for string keys. *)
Fixpoint at_path (keys : list string) (v : pyval) : outcome pyval :=
  match keys with
  | [] => Ok v
  | k :: rest => inner <- py_subscript v k ;; at_path rest inner
  end.

(** The node answered the query for [key] with an object that has no
    ["error"] entry and holds [value] under ["result"] and then [path]. *)
Definition node_reports (post : string -> pyval -> outcome pyval)
    (contract key : string) (path : list string) (value : pyval) : Prop :=
  exists reply result,
    post NODE_RPC_URL (contract_data_payload contract key) = Ok (PyDict reply) /\
    dict_get reply "error" = None /\
    dict_get reply "result" = Some result /\
    at_path path result = Ok value.

(** [c in s] for a one-character [c]. *)
Fixpoint has_char (c : ascii) (s : string) : bool :=
  match s with
  | EmptyString => false
  | String d t => Ascii.eqb c d || has_char c t
  end.

(** The miner is about to make an attempt with nonce [n] in the
    scenario above, nobody has asked for a restart, and the listener has
    not connected yet. *)
Definition searching (n : Z) (w : World) : Prop :=
  miner_pc w = AtHash /\ restart_event (state w) = false /\
  listener_pc w = LConnect /\ l_difficulty (locals w) = 1000 /\
  last_report (locals w) = inject_Z 0 /\ nonce (locals w) = n.

(** The submission ended the miner: it returned, and the reply was read as
    the supply-exhausted code. *)
Definition terminal_reply (reply : outcome pyval) : bool :=
  match reply with
  | Ok res => supply_exhausted (parse_contract_error res)
  | Raise _ => false
  end.

(** What holds of every world the two threads can reach. *)
Definition nonce_in_cycle (w : World) : Prop :=
  let l := locals w in
  match miner_pc w with
  | AtHotTest | AtHash | AtReport =>
      0 <= local_hashes l /\ 0 <= nonce l - local_hashes l <= 2 ^ 32
  | AtSubmit =>
      1 <= local_hashes l /\ 0 <= nonce l - (local_hashes l - 1) <= 2 ^ 32
  | _ => True
  end.

Definition submitted_last (w : World) : Prop :=
  match miner_pc w with
  | AtSetAwaiting =>
      exists earlier,
        submissions w = earlier ++ [(nonce (locals w), current_ts (locals w))]
  | _ => True
  end.

Definition coordinated (w : World) : Prop :=
  (in_search_cycle (miner_pc w) = true -> awaiting_confirmation (state w) = false) /\
  lock (state w) = holds_lock (miner_pc w) /\
  nonce_in_cycle w /\
  submitted_last w.

(** * Properties *)

(** ** Bytes *)

Lemma Z_of_byte_range (b : byte) : 0 <= Z_of_byte b < 256.
Proof.
  unfold Z_of_byte. pose proof (Byte.to_N_bounded b). lia.
Qed.

Lemma Z_of_byte_of_Z (z : Z) : Z_of_byte (byte_of_Z z) = z mod 256.
Proof.
  unfold Z_of_byte, byte_of_Z.
  assert (Hr : 0 <= z mod 256 < 256) by (apply Z.mod_pos_bound; lia).
  destruct (Byte.of_N (Z.to_N (z mod 256))) as [b|] eqn:E.
  - apply Byte.to_of_N in E. rewrite E. lia.
  - apply Byte.of_N_None_iff in E. lia.
Qed.

Lemma le_bytes_length (len : nat) (n : Z) : List.length (le_bytes len n) = len.
Proof.
  revert n. induction len as [|k IH]; intro n; simpl; [reflexivity|].
  now rewrite IH.
Qed.

Lemma le_bytes_value (len : nat) (n : Z) :
  little_endian_value (le_bytes len n) = n mod 2 ^ (8 * Z.of_nat len).
Proof.
  revert n. induction len as [|k IH]; intro n.
  - simpl. now rewrite Z.mod_1_r.
  - cbn [le_bytes little_endian_value].
    rewrite Z_of_byte_of_Z, IH, Z.shiftr_div_pow2 by lia.
    replace (8 * Z.of_nat (S k)) with (8 + 8 * Z.of_nat k) by lia.
    rewrite Z.pow_add_r by lia.
    change (2 ^ 8) with 256.
    rewrite (Z.rem_mul_r n 256 (2 ^ (8 * Z.of_nat k))) by lia.
    reflexivity.
Qed.

Lemma struct_pack_Q_ok (n : Z) :
  0 <= n < 2 ^ 64 ->
  exists p, struct_pack_Q n = Ok p /\ List.length p = 8%nat /\ little_endian_value p = n.
Proof.
  intro H. exists (le_bytes 8 n). unfold struct_pack_Q.
  replace ((0 <=? n) && (n <? 2 ^ 64)) with true
    by (symmetry; apply andb_true_iff; split; [apply Z.leb_le | apply Z.ltb_lt]; lia).
  split; [reflexivity | split; [apply le_bytes_length|]].
  rewrite le_bytes_value. apply Z.mod_small. exact H.
Qed.

Lemma struct_pack_Q_out_of_range (n : Z) :
  n < 0 \/ 2 ^ 64 <= n -> struct_pack_Q n = Raise StructError.
Proof.
  intro H. unfold struct_pack_Q.
  destruct (0 <=? n) eqn:E1; [|reflexivity].
  destruct (n <? 2 ^ 64) eqn:E2; [|reflexivity].
  apply Z.leb_le in E1. apply Z.ltb_lt in E2. lia.
Qed.

Lemma int_to_bytes_little_ok (n : Z) (len : nat) :
  0 <= n < 2 ^ (8 * Z.of_nat len) ->
  exists p, int_to_bytes_little n len = Ok p /\ List.length p = len /\
            little_endian_value p = n.
Proof.
  intro H. exists (le_bytes len n). unfold int_to_bytes_little.
  destruct (n <? 0) eqn:E1; [apply Z.ltb_lt in E1; lia|].
  destruct (n <? 2 ^ (8 * Z.of_nat len)) eqn:E2; [|apply Z.ltb_ge in E2; lia].
  split; [reflexivity | split; [apply le_bytes_length|]].
  rewrite le_bytes_value. apply Z.mod_small. exact H.
Qed.

Lemma int_from_bytes_acc (b : bytes) (acc : Z) :
  fold_left (fun a x => a * 256 + Z_of_byte x) b acc
  = acc * 256 ^ Z.of_nat (List.length b) + int_from_bytes b.
Proof.
  unfold int_from_bytes. revert acc.
  induction b as [|x t IH]; intro acc.
  - simpl. lia.
  - cbn [fold_left List.length]. rewrite IH, (IH (0 * 256 + Z_of_byte x)).
    rewrite Nat2Z.inj_succ, Z.pow_succ_r by lia. ring.
Qed.

Lemma int_from_bytes_cons (x : byte) (t : bytes) :
  int_from_bytes (x :: t) = Z_of_byte x * 256 ^ Z.of_nat (List.length t) + int_from_bytes t.
Proof.
  unfold int_from_bytes at 1. cbn [fold_left].
  rewrite int_from_bytes_acc. ring.
Qed.

Lemma int_from_bytes_range (b : bytes) :
  0 <= int_from_bytes b < 256 ^ Z.of_nat (List.length b).
Proof.
  induction b as [|x t IH].
  - cbn. lia.
  - rewrite int_from_bytes_cons. cbn [List.length].
    rewrite Nat2Z.inj_succ, Z.pow_succ_r by lia.
    pose proof (Z_of_byte_range x) as Hx.
    assert (HP : 0 < 256 ^ Z.of_nat (List.length t)) by (apply Z.pow_pos_nonneg; lia).
    remember (256 ^ Z.of_nat (List.length t)) as P.
    assert (0 <= Z_of_byte x * P) by (apply Z.mul_nonneg_nonneg; lia).
    assert (Z_of_byte x * P <= 255 * P) by (apply Z.mul_le_mono_nonneg_r; lia).
    lia.
Qed.

Lemma little_endian_value_app (a b : bytes) :
  little_endian_value (a ++ b)
  = little_endian_value a + 256 ^ Z.of_nat (List.length a) * little_endian_value b.
Proof.
  induction a as [|x t IH].
  - cbn [app little_endian_value List.length].
    change (Z.of_nat 0) with 0. rewrite Z.pow_0_r. lia.
  - cbn [app little_endian_value List.length]. rewrite IH.
    rewrite Nat2Z.inj_succ, Z.pow_succ_r by lia. ring.
Qed.

(** [int.from_bytes] reads the most significant byte first. *)
Lemma int_from_bytes_big_endian (b : bytes) :
  int_from_bytes b = little_endian_value (rev b).
Proof.
  induction b as [|x t IH].
  - reflexivity.
  - rewrite int_from_bytes_cons. cbn [rev].
    rewrite little_endian_value_app, length_rev, <- IH.
    cbn [little_endian_value]. ring.
Qed.

(** ** The difficulty predicate *)

Lemma MAX_TARGET_value : MAX_TARGET = 2 ^ 256 - 1.
Proof. reflexivity. Qed.

Lemma div_pos_by_neg (a b : Z) : 0 < a -> b < 0 -> a / b < 0.
Proof.
  intros Ha Hb.
  pose proof (Z.div_mod a b ltac:(lia)) as E.
  pose proof (Z.mod_neg_bound a b Hb) as R.
  nia.
Qed.

Lemma meets_difficulty_positive (final_hash : bytes) (difficulty : Z) :
  difficulty <> 0 ->
  meets_difficulty final_hash difficulty
  = Ok (int_from_bytes final_hash <=? (2 ^ 256 - 1) / difficulty).
Proof.
  intro H. unfold meets_difficulty, py_floordiv.
  destruct (difficulty =? 0) eqn:E; [apply Z.eqb_eq in E; contradiction|].
  reflexivity.
Qed.

(** C1 (as amended): [meets_difficulty] reads the hash most significant
    byte first and, for a difficulty of at least 1, answers whether that
    number is at most [(2^256 - 1) // difficulty]; difficulty 1 accepts
    every 32-byte hash.  Only difficulty 0 fails (division by zero); a
    negative difficulty does not fail, it rejects every hash. *)
Theorem meets_difficulty_by_sign (final_hash : bytes) (difficulty : Z) :
  int_from_bytes final_hash = little_endian_value (rev final_hash) /\
  (1 <= difficulty ->
   meets_difficulty final_hash difficulty
   = Ok (int_from_bytes final_hash <=? (2 ^ 256 - 1) / difficulty)) /\
  (difficulty = 0 ->
   meets_difficulty final_hash difficulty = Raise ZeroDivisionError) /\
  (difficulty < 0 ->
   meets_difficulty final_hash difficulty = Ok false) /\
  (List.length final_hash = 32%nat ->
   meets_difficulty final_hash 1 = Ok true).
Proof.
  split; [apply int_from_bytes_big_endian|].
  split; [intro H; apply meets_difficulty_positive; lia|].
  split; [intro H; subst; reflexivity|].
  split.
  - intro H. rewrite meets_difficulty_positive by lia. f_equal.
    apply Z.leb_gt.
    pose proof (int_from_bytes_range final_hash).
    pose proof (div_pos_by_neg (2 ^ 256 - 1) difficulty ltac:(lia) H).
    lia.
  - intro H. rewrite meets_difficulty_positive by lia. f_equal.
    apply Z.leb_le. rewrite Z.div_1_r.
    pose proof (int_from_bytes_range final_hash) as R.
    rewrite H in R. change (256 ^ Z.of_nat 32) with (2 ^ 256) in R. lia.
Qed.

Lemma meets_difficulty_by_sign_witness :
  meets_difficulty (repeat xff 32) 1000 = Ok false /\
  meets_difficulty (repeat xff 32) 0 = Raise ZeroDivisionError /\
  meets_difficulty (repeat xff 32) (-5) = Ok false /\
  meets_difficulty (repeat xff 32) 1 = Ok true.
Proof.
  pose proof (meets_difficulty_by_sign (repeat xff 32)) as T.
  split; [| split; [| split]].
  - destruct (T 1000) as (_ & H & _). rewrite H by lia. reflexivity.
  - destruct (T 0) as (_ & _ & H & _). apply H. reflexivity.
  - destruct (T (-5)) as (_ & _ & _ & H & _). apply H. lia.
  - destruct (T 1) as (_ & _ & _ & _ & H). apply H. reflexivity.
Defined.

(** C1 as first stated (every difficulty below 1 makes the call fail) does
    not hold: the all-zero hash with difficulty -1 is answered [False]. *)
Lemma meets_difficulty_negative_returns :
  meets_difficulty (repeat x00 32) (-1) = Ok false /\
  ~ (forall final_hash difficulty,
       List.length final_hash = 32%nat -> difficulty < 1 ->
       exists e, meets_difficulty final_hash difficulty = Raise e).
Proof.
  split; [reflexivity|].
  intro H. destruct (H (repeat x00 32) (-1) eq_refl ltac:(lia)) as [e He].
  discriminate He.
Qed.

(** ** Hashing *)

Section Hashing.

Variable blake3_digest : bytes -> bytes.
Variable sha3_256_digest : bytes -> bytes.

(** C6: for a height and timestamp that fit 8 bytes and a difficulty
    that fits 32, [generate_header_hash] applies the header digest once
    to height (8 bytes, little-endian), miner address, difficulty (32
    bytes, little-endian), previous hash and timestamp (8 bytes,
    little-endian), in this order; the result is the 32-byte digest. *)
Theorem generate_header_hash_layout
    (block_number : Z) (miner : bytes) (difficulty : Z) (prev_hash : bytes) (ts : Z) :
  (forall data, List.length (blake3_digest data) = 32%nat) ->
  0 <= block_number < 2 ^ 64 ->
  0 <= difficulty < 2 ^ 256 ->
  0 <= ts < 2 ^ 64 ->
  exists height_le difficulty_le ts_le digest,
    List.length height_le = 8%nat /\ little_endian_value height_le = block_number /\
    List.length difficulty_le = 32%nat /\ little_endian_value difficulty_le = difficulty /\
    List.length ts_le = 8%nat /\ little_endian_value ts_le = ts /\
    generate_header_hash blake3_digest block_number miner difficulty prev_hash ts
    = Ok digest /\
    digest = blake3_digest (height_le ++ miner ++ difficulty_le ++ prev_hash ++ ts_le) /\
    List.length digest = 32%nat.
Proof.
  intros Hlen Hb Hd Ht.
  destruct (struct_pack_Q_ok block_number Hb) as (h & Eh & Lh & Vh).
  destruct (int_to_bytes_little_ok difficulty 32 Hd) as (d & Ed & Ld & Vd).
  destruct (struct_pack_Q_ok ts Ht) as (t & Et & Lt & Vt).
  exists h, d, t, (blake3_digest (h ++ miner ++ d ++ prev_hash ++ t)).
  repeat (split; [assumption|]).
  split; [|split; [reflexivity | apply Hlen]].
  unfold generate_header_hash. rewrite Eh, Ed, Et. cbn [bind app].
  now rewrite <- !app_assoc.
Qed.

(** C7: for a nonce in [0, 2^64), the hash of an attempt is the SHA3-256
    digest applied twice to the header digest followed by the nonce in 8
    little-endian bytes. *)
Theorem compute_final_hash_double (header_hash : bytes) (nonce : Z) :
  0 <= nonce < 2 ^ 64 ->
  exists nonce_le,
    List.length nonce_le = 8%nat /\ little_endian_value nonce_le = nonce /\
    compute_final_hash sha3_256_digest header_hash nonce
    = Ok (sha3_256_digest (sha3_256_digest (header_hash ++ nonce_le))).
Proof.
  intro Hn.
  destruct (struct_pack_Q_ok nonce Hn) as (p & Ep & Lp & Vp).
  exists p. repeat (split; [assumption|]).
  unfold compute_final_hash. rewrite Ep. reflexivity.
Qed.

End Hashing.

Lemma generate_header_hash_layout_witness :
  exists digest,
    generate_header_hash zero_digest 100 (repeat x01 34) 1000 (repeat x00 32) 1700000000000
    = Ok digest /\ List.length digest = 32%nat.
Proof.
  destruct (generate_header_hash_layout zero_digest 100 (repeat x01 34) 1000
              (repeat x00 32) 1700000000000)
    as (h & d & t & digest & _ & _ & _ & _ & _ & _ & E & _ & L).
  - intro data. reflexivity.
  - lia.
  - lia.
  - lia.
  - exists digest. split; assumption.
Defined.

Lemma compute_final_hash_double_witness :
  exists nonce_le,
    little_endian_value nonce_le = 258 /\
    compute_final_hash ones_digest (repeat x00 32) 258
    = Ok (ones_digest (ones_digest (repeat x00 32 ++ nonce_le))).
Proof.
  destruct (compute_final_hash_double ones_digest (repeat x00 32) 258)
    as (p & _ & V & E).
  - lia.
  - exists p. split; assumption.
Defined.

(** ** The address decoder *)

Lemma drain_once (acc bits : Z) (result : list Z) :
  0 <= bits < 16 ->
  drain (Z.to_nat bits) acc bits result
  = if 8 <=? bits
    then (bits - 8, result ++ [Z.land (Z.shiftr acc (bits - 8)) 255])
    else (bits, result).
Proof.
  intro H.
  destruct (Z.to_nat bits) as [|fuel] eqn:F.
  - cbn [drain]. destruct (8 <=? bits) eqn:E; [apply Z.leb_le in E; lia | reflexivity].
  - cbn [drain]. destruct (8 <=? bits) eqn:E; [|reflexivity].
    apply Z.leb_le in E.
    destruct fuel as [|fuel']; cbn [drain]; [reflexivity|].
    destruct (8 <=? bits - 8) eqn:E'; [apply Z.leb_le in E'; lia | reflexivity].
Qed.

Lemma regroup_length (data_5bit : list Z) :
  forall acc bits result,
    0 <= bits < 8 ->
    Z.of_nat (List.length (regroup data_5bit acc bits result))
    = Z.of_nat (List.length result) + (bits + 5 * Z.of_nat (List.length data_5bit)) / 8.
Proof.
  induction data_5bit as [|value rest IH]; intros acc bits result Hb.
  - cbn [regroup List.length]. rewrite Z.div_small by lia. lia.
  - cbn [regroup]. rewrite drain_once by lia.
    destruct (8 <=? bits + 5) eqn:E.
    + apply Z.leb_le in E. rewrite IH by lia.
      rewrite length_app. cbn [List.length].
      replace (bits + 5 * Z.of_nat (S (List.length rest)))
        with (bits + 5 - 8 + 5 * Z.of_nat (List.length rest) + 1 * 8) by lia.
      rewrite Z.div_add by lia. lia.
    + apply Z.leb_gt in E. rewrite IH by lia.
      f_equal. f_equal. cbn [List.length]. lia.
Qed.

Lemma regroup_items (data_5bit : list Z) :
  forall acc bits result,
    0 <= bits < 8 ->
    Forall (fun v => 0 <= v < 256) result ->
    Forall (fun v => 0 <= v < 256) (regroup data_5bit acc bits result).
Proof.
  induction data_5bit as [|value rest IH]; intros acc bits result Hb Hr.
  - exact Hr.
  - cbn [regroup]. rewrite drain_once by lia.
    destruct (8 <=? bits + 5) eqn:E.
    + apply Z.leb_le in E. apply IH; [lia|].
      apply Forall_app. split; [exact Hr|].
      constructor; [|constructor].
      change 255 with (Z.ones 8). rewrite Z.land_ones by lia.
      apply Z.mod_pos_bound. reflexivity.
    + apply Z.leb_gt in E. apply IH; [lia | exact Hr].
Qed.

Lemma mapM_length {A B : Type} (f : A -> outcome B) (l : list A) (l' : list B) :
  mapM f l = Ok l' -> List.length l' = List.length l.
Proof.
  revert l'. induction l as [|a t IH]; intros l' H.
  - injection H as <-. reflexivity.
  - cbn [mapM] in H. destruct (f a) as [b|e]; [|discriminate].
    cbn [bind] in H. destruct (mapM f t) as [bs|e]; [|discriminate].
    injection H as <-. cbn [List.length]. f_equal. now apply IH.
Qed.

Lemma bytes_of_ints_cons (v : Z) (t : list Z) (b : bytes) :
  bytes_of_ints (v :: t) = Ok b ->
  exists b', b = byte_of_Z v :: b' /\ bytes_of_ints t = Ok b'.
Proof.
  unfold bytes_of_ints. cbn [mapM].
  destruct ((0 <=? v) && (v <? 256)); [|discriminate].
  cbn [bind].
  destruct (mapM _ t) as [bs|e]; [|discriminate].
  intro H. injection H as <-. exists bs. split; reflexivity.
Qed.

Lemma list_ascii_length (s : string) :
  List.length (list_ascii_of_string s) = String.length s.
Proof.
  induction s as [|c t IH]; [reflexivity|]. cbn. now rewrite IH.
Qed.

(** C8 (as amended): the miner address handed to [mine_loop] is a zero
    byte followed by the first [min(33, 5n // 8)] bytes regrouped from the
    [n] characters after the colon, so [1 + min(33, 5n // 8)] bytes long;
    an address with at least 53 data characters gives 34 bytes. *)
Theorem address_bytes_length (address : string) (b : bytes) :
  address_bytes_of address = Ok b ->
  exists prefix data_part payload,
    str_split ":"%char address = [prefix; data_part] /\
    b = x00 :: payload /\
    List.length payload = Nat.min 33 (5 * String.length data_part / 8) /\
    (53 <= String.length data_part -> List.length b = 34)%nat.
Proof.
  unfold address_bytes_of, decode_xet_address.
  destruct (str_split ":"%char address) as [|prefix [|data_part [|x rest]]];
    try discriminate.
  destruct (mapM (fun c => str_index c charset) (list_ascii_of_string data_part))
    as [data_5bit|e] eqn:M; [|discriminate].
  cbn [bind]. intro H.
  apply bytes_of_ints_cons in H. destruct H as (payload & -> & H).
  apply mapM_length in H. apply mapM_length in M.
  rewrite list_ascii_length in M.
  assert (L : List.length payload = Nat.min 33 (5 * String.length data_part / 8)).
  { rewrite H, length_firstn. f_equal.
    apply Nat2Z.inj.
    rewrite (regroup_length data_5bit 0 0 []) by lia.
    rewrite M. cbn [List.length].
    rewrite Nat2Z.inj_div, Nat2Z.inj_mul. reflexivity. }
  exists prefix, data_part, payload.
  split; [reflexivity|]. split; [reflexivity|]. split; [exact L|].
  intro Hn. cbn [List.length]. rewrite L. f_equal.
  apply Nat.min_l.
  apply (Nat.div_le_lower_bound (5 * String.length data_part) 8 33); lia.
Qed.

Lemma address_bytes_length_witness :
  exists b, address_bytes_of example_address = Ok b /\ List.length b = 34%nat.
Proof.
  destruct (address_bytes_of example_address) as [b|e] eqn:E; [|discriminate E].
  exists b. split; [reflexivity|].
  destruct (address_bytes_length example_address b E)
    as (prefix & data_part & payload & S & _ & _ & L).
  apply L. injection S as _ <-. vm_compute. lia.
Defined.

(** C8 as first stated (always exactly 33 bytes) does not hold: the
    address of the script's usage text decodes to 34 bytes, and an
    address with an empty data part to a single byte. *)
Lemma address_bytes_not_33 :
  (exists b, address_bytes_of example_address = Ok b /\ List.length b = 34%nat) /\
  address_bytes_of "xet:" = Ok [x00] /\
  ~ (forall address b, address_bytes_of address = Ok b -> List.length b = 33%nat).
Proof.
  split; [eexists; split; vm_compute; reflexivity|].
  split; [reflexivity|].
  intro H. specialize (H "xet:"%string [x00] eq_refl). discriminate H.
Qed.

(** ** Coordination of the two threads *)

Lemma randint_range (a b entropy : Z) :
  a <= b -> a <= randint a b entropy <= b.
Proof.
  intro H. unfold randint.
  pose proof (Z.mod_pos_bound entropy (b - a + 1) ltac:(lia)). lia.
Qed.

Ltac split_step H :=
  repeat match type of H with
         | context [match ?x with _ => _ end] => destruct x eqn:?; try discriminate H
         end.

Section Coordination.

Variable blake3_digest : bytes -> bytes.
Variable sha3_256_digest : bytes -> bytes.
Variable CONTRACT_HASH : string.

Local Abbreviation miner := (miner_step blake3_digest sha3_256_digest).
Local Abbreviation listener := (listener_step CONTRACT_HASH).
Local Abbreviation step1 := (step blake3_digest sha3_256_digest CONTRACT_HASH).
Local Abbreviation run1 := (run blake3_digest sha3_256_digest CONTRACT_HASH).

Lemma run_app (es1 es2 : list Event) (w : World) :
  run1 (es1 ++ es2) w
  = match run1 es1 w with
    | Some w' => run1 es2 w'
    | None => None
    end.
Proof.
  revert w. induction es1 as [|e es IH]; intro w; cbn [app run]; [reflexivity|].
  destruct (step1 e w); [apply IH | reflexivity].
Qed.

(** The listener never touches the miner's control point, its local
    variables, the mining parameters, the lock or the submission log,
    and it never raises the confirmation flag. *)
Lemma listener_step_frame (i : ListenerInput) (w w' : World) :
  listener i w = Some w' ->
  miner_pc w' = miner_pc w /\
  search_data w' = search_data w /\
  lock (state w') = lock (state w) /\
  (awaiting_confirmation (state w') = true ->
   awaiting_confirmation (state w) = true).
Proof.
  unfold listener_step, search_data. intro H.
  split_step H; injection H as <-; cbn; auto.
  all: repeat split; auto; discriminate.
Qed.

Lemma initial_world_coordinated (address : bytes) (t0 t1 : Q) :
  coordinated (initial_world address t0 t1).
Proof.
  unfold coordinated, nonce_in_cycle, submitted_last. cbn.
  repeat split; auto; discriminate.
Qed.

Lemma miner_step_coordinated (i : MinerInput) (w w' : World) :
  coordinated w -> miner i w = Some w' -> coordinated w'.
Proof.
  unfold coordinated, nonce_in_cycle, submitted_last.
  intros (Hs & Hl & Hn & Hsub) H.
  unfold miner_step in H.
  destruct (miner_pc w) eqn:Epc; cbn in Hs, Hl, Hn, Hsub;
    split_step H; try discriminate H; injection H as <-; cbn;
    repeat match goal with |- _ /\ _ => split end;
    auto; try discriminate; try congruence; try lia.
  - pose proof (Z.mod_pos_bound (in_random i) 4294967297 ltac:(lia)). lia.
  - pose proof (Z.mod_pos_bound (in_random i) 4294967297 ltac:(lia)). lia.
  - eexists. reflexivity.
  - eexists. reflexivity.
Qed.

Lemma listener_step_coordinated (i : ListenerInput) (w w' : World) :
  coordinated w -> listener i w = Some w' -> coordinated w'.
Proof.
  intros (Hs & Hl & Hn & Hsub) H.
  destruct (listener_step_frame i w w' H) as (Epc & Ed & El & Ha).
  unfold search_data in Ed. injection Ed as _ _ _ _ Eloc Esub.
  unfold coordinated, nonce_in_cycle, submitted_last in *.
  rewrite Epc, El, Eloc, Esub.
  repeat split; auto.
  intro Hc. specialize (Hs Hc).
  destruct (awaiting_confirmation (state w')) eqn:E; [|reflexivity].
  rewrite (Ha eq_refl) in Hs. discriminate.
Qed.

Lemma step_coordinated (e : Event) (w w' : World) :
  coordinated w -> step1 e w = Some w' -> coordinated w'.
Proof.
  intros Hc H. unfold step in H.
  destruct (process_exited w); [discriminate|].
  destruct e as [i|i];
    [eapply miner_step_coordinated | eapply listener_step_coordinated]; eauto.
Qed.

Lemma run_coordinated (es : list Event) (w w' : World) :
  coordinated w -> run1 es w = Some w' -> coordinated w'.
Proof.
  revert w. induction es as [|e es IH]; intros w Hc H; cbn [run] in H.
  - now injection H as <-.
  - destruct (step1 e w) as [w1|] eqn:E; [|discriminate].
    eapply IH; [|exact H]. eapply step_coordinated; eauto.
Qed.

(** C2: in every world the two threads can reach, while
    [awaiting_confirmation] is set the miner is outside the search
    cycle (it is neither refreshing the parameters nor hashing), and
    whatever its next step is, and whether or not [restart_event] is
    set, that step stays outside the cycle and leaves the mining
    parameters, the search variables and the submission log as they
    are. *)
Theorem no_search_while_awaiting
    (es : list Event) (address : bytes) (t0 t1 : Q) (w : World) :
  run1 es (initial_world address t0 t1) = Some w ->
  awaiting_confirmation (state w) = true ->
  in_search_cycle (miner_pc w) = false /\
  forall i w', miner i w = Some w' ->
    in_search_cycle (miner_pc w') = false /\ search_data w' = search_data w.
Proof.
  intros Hrun Ha.
  pose proof (run_coordinated es _ w (initial_world_coordinated address t0 t1) Hrun)
    as (Hs & _).
  assert (Hout : in_search_cycle (miner_pc w) = false).
  { destruct (in_search_cycle (miner_pc w)); [|reflexivity].
    rewrite (Hs eq_refl) in Ha. discriminate. }
  split; [exact Hout|].
  intros i w' H. unfold miner_step in H.
  destruct (miner_pc w) eqn:Epc; try discriminate Hout;
    rewrite ?Ha in H; split_step H; try discriminate H;
    injection H as <-; split; reflexivity.
Qed.

Lemma handle_message_restart (data : pyval) :
  handle_message CONTRACT_HASH data = Ok Restart ->
  is_target_event CONTRACT_HASH data.
Proof.
  unfold handle_message. intro H.
  destruct data as [ | | | | | s | l | d]; try discriminate H.
  - cbn in H. destruct (str_in "result" s); discriminate H.
  - cbn in H.
    destruct (existsb (fun v => py_eq_str v "result") l); discriminate H.
  - cbn in H.
    destruct (dict_get d "result") as [r|] eqn:Er; [|discriminate H].
    cbn in H.
    destruct r as [ | | | | | | | result]; try discriminate H.
    cbn in H.
    destruct (dict_get result "event") as [ev|] eqn:Eev; [|discriminate H].
    cbn in H.
    destruct ev as [ | | | | | | | event]; try discriminate H.
    cbn in H.
    destruct (dict_get event "contract_event") as [info|] eqn:Einfo;
      [|discriminate H].
    cbn in H.
    destruct info as [ | | | | | | | event_info]; try discriminate H.
    cbn in H.
    destruct (dict_get event_info "contract") as [c|] eqn:Ec; [|discriminate H].
    destruct c as [ | | | | | contract | | ]; try discriminate H.
    cbn [py_eq_str] in H.
    destruct (String.eqb contract CONTRACT_HASH) eqn:Es; [|discriminate H].
    apply String.eqb_eq in Es. subst contract.
    destruct (dict_get event_info "id") as [id|] eqn:Eid; [|discriminate H].
    destruct (py_eq_int id CONTRACT_EVENT_ID) eqn:Ei; [|discriminate H].
    exists d, result, event, event_info, id. repeat split; assumption.
Qed.

Lemma miner_step_awaiting (i : MinerInput) (w w' : World) :
  miner i w = Some w' ->
  awaiting_confirmation (state w') = awaiting_confirmation (state w) \/
  (miner_pc w = AtSetAwaiting /\ awaiting_confirmation (state w') = true).
Proof.
  unfold miner_step. intro H.
  destruct (miner_pc w) eqn:Epc; split_step H; try discriminate H;
    injection H as <-; cbn; auto.
Qed.

Lemma listener_step_awaiting (i : ListenerInput) (w w' : World) :
  listener i w = Some w' ->
  awaiting_confirmation (state w') = awaiting_confirmation (state w) \/
  (awaiting_confirmation (state w') = false /\
   exists data, i = Message data /\
                handle_message CONTRACT_HASH data = Ok Restart).
Proof.
  unfold listener_step. intro H.
  split_step H; injection H as <-; cbn; auto.
  right. split; [reflexivity|]. eexists. split; [reflexivity | assumption].
Qed.

(** C3: over every step of a reachable world, the flag goes from false
    to true only in the miner's step right after the [submit_solution]
    call for the current nonce and timestamp, and from true to false
    only in the listener's step for an event envelope whose contract
    and event id are the configured ones; the miner's report step, which
    forces the periodic refresh, leaves the flag as it is. *)
Theorem awaiting_confirmation_writers
    (es : list Event) (address : bytes) (t0 t1 : Q) (w : World)
    (e : Event) (w' : World) :
  run1 es (initial_world address t0 t1) = Some w ->
  step1 e w = Some w' ->
  (awaiting_confirmation (state w) = false ->
   awaiting_confirmation (state w') = true ->
   exists i earlier,
     e = MinerStep i /\ miner_pc w = AtSetAwaiting /\
     submissions w = earlier ++ [(nonce (locals w), current_ts (locals w))]) /\
  (awaiting_confirmation (state w) = true ->
   awaiting_confirmation (state w') = false ->
   exists data,
     e = ListenerStep (Message data) /\ is_target_event CONTRACT_HASH data) /\
  (forall i, e = MinerStep i -> miner_pc w = AtReport ->
             awaiting_confirmation (state w') = awaiting_confirmation (state w)).
Proof.
  intros Hrun Hstep.
  pose proof (run_coordinated es _ w (initial_world_coordinated address t0 t1) Hrun)
    as (_ & _ & _ & Hsub).
  unfold step in Hstep.
  destruct (process_exited w); [discriminate|].
  destruct e as [i|i].
  - destruct (miner_step_awaiting i w w' Hstep) as [E|[Epc E]].
    + split; [|split]; intros; congruence.
    + split; [|split].
      * intros _ _. unfold submitted_last in Hsub. rewrite Epc in Hsub.
        destruct Hsub as [earlier Hsub]. exists i, earlier. auto.
      * intros _ F. congruence.
      * intros j _ F. congruence.
  - destruct (listener_step_awaiting i w w' Hstep) as [E|[E (data & -> & Hd)]].
    + split; [|split]; intros; congruence.
    + split; [|split].
      * intros _ F. congruence.
      * intros _ _. exists data. split; [reflexivity|].
        now apply handle_message_restart.
      * intros j F. discriminate F.
Qed.

(** C4 (as amended): a found solution is passed to [submit_solution]
    once, with the nonce and the template timestamp.  When the call
    raises, or returns anything but the supply-exhausted code, the miner
    goes on to set [awaiting_confirmation], clears [restart_event] and
    blocks on it, without a second call; when the reply carries the
    supply-exhausted code the miner thread ends instead. *)
Theorem submit_once_then_block
    (es : list Event) (address : bytes) (t0 t1 : Q) (w : World)
    (i : MinerInput) (w1 : World) :
  run1 es (initial_world address t0 t1) = Some w ->
  miner_pc w = AtSubmit ->
  miner i w = Some w1 ->
  submissions w1 = submissions w ++ [(nonce (locals w), current_ts (locals w))] /\
  (forall e, in_submit i = Raise e -> terminal_reply (in_submit i) = false) /\
  (terminal_reply (in_submit i) = true -> miner_pc w1 = Exited) /\
  (terminal_reply (in_submit i) = false ->
   miner_pc w1 = AtSetAwaiting /\
   forall i2, exists w2,
     miner i2 w1 = Some w2 /\ miner_pc w2 = AtClear /\
     awaiting_confirmation (state w2) = true /\
     submissions w2 = submissions w1 /\
     forall i3, exists w3,
       miner i3 w2 = Some w3 /\ miner_pc w3 = AtBlocked /\
       awaiting_confirmation (state w3) = true /\
       restart_event (state w3) = false /\
       submissions w3 = submissions w1 /\
       forall i4, miner i4 w3 = None).
Proof.
  intros Hrun Epc H.
  pose proof (run_coordinated es _ w (initial_world_coordinated address t0 t1) Hrun)
    as (_ & Hl & _).
  rewrite Epc in Hl. cbn in Hl.
  unfold miner_step in H. rewrite Epc in H.
  assert (Hw1 : w1 = goto (if terminal_reply (in_submit i) then Exited else AtSetAwaiting)
                       (log_submission (nonce (locals w), current_ts (locals w)) w)).
  { unfold terminal_reply. destruct (in_submit i) as [res|e].
    - destruct (supply_exhausted (parse_contract_error res));
        injection H as <-; reflexivity.
    - injection H as <-; reflexivity. }
  clear H. subst w1.
  split; [reflexivity|].
  split; [intros e E; rewrite E; reflexivity|].
  split; [intro T; rewrite T; reflexivity|].
  intro T. rewrite T. split; [reflexivity|].
  intro i2. eexists. split.
  { unfold miner_step. cbn. rewrite Hl. reflexivity. }
  split; [reflexivity|]. split; [reflexivity|]. split; [reflexivity|].
  intro i3. eexists. split.
  { unfold miner_step. cbn. reflexivity. }
  split; [reflexivity|]. split; [reflexivity|]. split; [reflexivity|].
  split; [reflexivity|].
  intro i4. reflexivity.
Qed.

(** C10: the step that starts a search cycle draws the nonce from
    [0, 2^32], both ends included, and resets the attempt counter; in
    every reachable world at the head of the hash loop the nonce is that
    start plus the number of attempts made since, so only attempts carry
    it past 2^32. *)
Theorem initial_nonce_range
    (es : list Event) (address : bytes) (t0 t1 : Q) (w : World) :
  run1 es (initial_world address t0 t1) = Some w ->
  (forall i w',
      miner_pc w = AtHeader -> miner i w = Some w' -> miner_pc w' = AtHotTest ->
      local_hashes (locals w') = 0 /\ 0 <= nonce (locals w') <= 2 ^ 32) /\
  (miner_pc w = AtHotTest \/ miner_pc w = AtHash ->
   0 <= local_hashes (locals w) /\
   0 <= nonce (locals w) - local_hashes (locals w) <= 2 ^ 32) /\
  (exists entropy, randint 0 (2 ^ 32) entropy = 2 ^ 32).
Proof.
  intro Hrun.
  pose proof (run_coordinated es _ w (initial_world_coordinated address t0 t1) Hrun)
    as (_ & _ & Hn & _).
  split; [|split].
  - intros i w' Epc H Epc'. unfold miner_step in H. rewrite Epc in H.
    destruct (generate_header_hash _ _ _ _ _ _) as [h|e].
    + injection H as <-.
      cbn [goto with_locals begin_search locals nonce local_hashes].
      split; [reflexivity|].
      pose proof (randint_range 0 (2 ^ 32) (in_random i) ltac:(lia)) as R.
      unfold randint in R. cbn in R |- *. lia.
    + injection H as <-. discriminate Epc'.
  - unfold nonce_in_cycle in Hn. intros [Epc|Epc]; rewrite Epc in Hn; exact Hn.
  - exists (2 ^ 32). reflexivity.
Qed.

(** C9 (as amended): an attempt that misses adds exactly one to the
    nonce, with no wrap-around.  The nonce of a reachable attempt is never
    negative and stays below 2^64 while fewer than 2^64 - 2^32 attempts
    were made in the cycle; an attempt with a nonce of 2^64 or more ends
    the miner thread with [struct.error]. *)
Theorem nonce_increment_unbounded
    (es : list Event) (address : bytes) (t0 t1 : Q) (w : World)
    (i : MinerInput) (w' : World) :
  run1 es (initial_world address t0 t1) = Some w ->
  miner_pc w = AtHash ->
  miner i w = Some w' ->
  (forall final_hash,
      compute_final_hash sha3_256_digest (header_hash (locals w)) (nonce (locals w))
      = Ok final_hash ->
      meets_difficulty final_hash (l_difficulty (locals w)) = Ok false ->
      miner_pc w' = AtReport /\ nonce (locals w') = nonce (locals w) + 1) /\
  (local_hashes (locals w) < 2 ^ 64 - 2 ^ 32 ->
   0 <= nonce (locals w) < 2 ^ 64 /\ miner_pc w' <> Crashed StructError) /\
  (2 ^ 64 <= nonce (locals w) -> miner_pc w' = Crashed StructError).
Proof.
  intros Hrun Epc H.
  pose proof (run_coordinated es _ w (initial_world_coordinated address t0 t1) Hrun)
    as (_ & _ & Hn & _).
  unfold nonce_in_cycle in Hn. rewrite Epc in Hn.
  unfold miner_step in H. rewrite Epc in H.
  split; [|split].
  - intros final_hash E M. rewrite E in H. cbn in H. rewrite M in H.
    injection H as <-. split; reflexivity.
  - intro Hh. assert (R : 0 <= nonce (locals w) < 2 ^ 64) by lia.
    split; [exact R|].
    destruct (struct_pack_Q_ok _ R) as (p & Ep & _).
    unfold compute_final_hash in H. rewrite Ep in H. cbn in H.
    destruct (meets_difficulty _ _) as [[|]|e] eqn:M;
      injection H as <-; cbn; try discriminate.
    unfold meets_difficulty, py_floordiv in M.
    destruct (l_difficulty (locals w) =? 0); cbn in M; [|discriminate M].
    injection M as <-. discriminate.
  - intro Hh. unfold compute_final_hash in H.
    rewrite struct_pack_Q_out_of_range in H by lia.
    injection H as <-. reflexivity.
Qed.

End Coordination.

(** ** Reading the wallet's reply *)

Lemma str_in_first_char (c : ascii) (rest hay : string) :
  str_in (String c rest) hay = true -> has_char c hay = true.
Proof.
  induction hay as [|d t IH]; cbn [str_in has_char String.prefix]; intro H.
  - discriminate H.
  - destruct (ascii_dec c d) as [->|N].
    + now rewrite Ascii.eqb_refl.
    + cbn [orb] in H. rewrite (IH H). apply orb_true_r.
Qed.

Lemma has_char_app (c : ascii) (a b : string) :
  has_char c (a ++ b) = has_char c a || has_char c b.
Proof.
  induction a as [|d t IH]; cbn [append has_char]; [reflexivity|].
  rewrite IH. apply orb_assoc.
Qed.

Lemma digits_have_no_M (d : Decimal.uint) :
  has_char "M" (NilEmpty.string_of_uint d) = false.
Proof.
  induction d; cbn [NilEmpty.string_of_uint has_char]; try rewrite IHd; reflexivity.
Qed.

Lemma str_of_int_has_no_M (n : Z) : has_char "M" (str_of_int n) = false.
Proof.
  unfold str_of_int, NilZero.string_of_int, NilZero.string_of_uint.
  destruct (Z.to_int n) as [d|d];
    destruct d; cbn [has_char]; try rewrite digits_have_no_M; reflexivity.
Qed.

Lemma unknown_code_not_terminal (return_code : pyval) :
  str_in "Max supply reached" ("❓ Unknown return code: " ++ py_format return_code)
  = false.
Proof.
  destruct (str_in _ _) eqn:E; [|reflexivity].
  apply str_in_first_char in E. rewrite has_char_app in E.
  assert (F : has_char "M" (py_format return_code) = false).
  { unfold py_format. destruct return_code as [ |[|]| | | | | | ];
      try apply str_of_int_has_no_M; reflexivity. }
  rewrite F in E. vm_compute in E. discriminate E.
Qed.

(** X9: the miner reads a reply as "supply exhausted" exactly when the
    reply is a dict, a return code is found in it, the code is an [int]
    instance and it equals 1. *)
Lemma supply_exhausted_code_1 (res : pyval) :
  supply_exhausted (parse_contract_error res) = true <->
  isinstance_dict res = true /\
  exists return_code,
    find_return_code res = Ok (Some return_code) /\
    isinstance_int return_code = true /\ int_value return_code = 1.
Proof.
  unfold parse_contract_error. split.
  - destruct (isinstance_dict res); [|discriminate].
    destruct (find_return_code res) as [[rc|]|e]; try discriminate.
    destruct (isinstance_int rc) eqn:Ei; [|discriminate].
    intro H. split; [reflexivity|]. exists rc.
    split; [reflexivity|]. split; [exact Ei|].
    unfold error_codes in H. cbn [codes_get] in H.
    destruct (0 =? int_value rc); [vm_compute in H; discriminate H|].
    destruct (1 =? int_value rc) eqn:E1; [apply Z.eqb_eq in E1; lia|].
    destruct (2 =? int_value rc); [vm_compute in H; discriminate H|].
    destruct (3 =? int_value rc); [vm_compute in H; discriminate H|].
    destruct (4 =? int_value rc); [vm_compute in H; discriminate H|].
    unfold supply_exhausted in H.
    rewrite unknown_code_not_terminal, andb_false_r in H. discriminate H.
  - intros (-> & rc & -> & -> & E).
    unfold error_codes. cbn [codes_get]. rewrite E. reflexivity.
Qed.

Lemma submit_once_then_block_witness :
  exists w w1,
    run zero_digest zero_digest ""
        (to_first_attempt ++ [MinerStep (scenario_input (Raise RuntimeError))])
        scenario_world = Some w /\
    miner_step zero_digest zero_digest (scenario_input (Raise RuntimeError)) w = Some w1 /\
    submissions w1 = [(7, 0)] /\ miner_pc w1 = AtSetAwaiting.
Proof.
  destruct (run zero_digest zero_digest ""
              (to_first_attempt ++ [MinerStep (scenario_input (Raise RuntimeError))])
              scenario_world) as [w|] eqn:E; [|vm_compute in E; discriminate E].
  destruct (miner_step zero_digest zero_digest (scenario_input (Raise RuntimeError)) w)
    as [w1|] eqn:E1;
    [|vm_compute in E; injection E as <-; vm_compute in E1; discriminate E1].
  assert (P : miner_pc w = AtSubmit)
    by (vm_compute in E; injection E as <-; reflexivity).
  assert (S : submissions w = [] /\ nonce (locals w) = 7 /\ current_ts (locals w) = 0)
    by (vm_compute in E; injection E as <-; repeat split; reflexivity).
  destruct S as (S0 & S1 & S2).
  exists w, w1. split; [reflexivity|]. split; [exact E1|].
  destruct (submit_once_then_block zero_digest zero_digest ""
              _ (repeat x01 34) (inject_Z 0) (inject_Z 0) w
              (scenario_input (Raise RuntimeError)) w1 E P E1)
    as (L & _ & _ & A).
  rewrite S0, S1, S2 in L.
  split; [exact L|]. apply A. reflexivity.
Defined.

(** C4 as first stated (the flag is set whatever the outcome of the
    submission) does not hold: when the wallet's reply carries return code
    1 the miner ends without setting the flag and never blocks on the
    event. *)
Lemma supply_exhausted_leaves_flag_clear :
  (exists w w1,
     run zero_digest zero_digest ""
         (to_first_attempt ++ [MinerStep (scenario_input (Raise RuntimeError))])
         scenario_world = Some w /\
     miner_pc w = AtSubmit /\
     miner_step zero_digest zero_digest (scenario_input (Ok exhausted_reply)) w = Some w1 /\
     miner_pc w1 = Exited /\
     awaiting_confirmation (state w1) = false /\
     forall i, miner_step zero_digest zero_digest i w1 = None) /\
  ~ (forall es w i w1,
       run zero_digest zero_digest "" es scenario_world = Some w ->
       miner_pc w = AtSubmit ->
       miner_step zero_digest zero_digest i w = Some w1 ->
       miner_pc w1 = AtSetAwaiting).
Proof.
  split.
  - eexists. eexists.
    split; [vm_compute; reflexivity|].
    split; [reflexivity|].
    split; [vm_compute; reflexivity|].
    split; [reflexivity|]. split; [reflexivity|].
    intro i. reflexivity.
  - intro H.
    specialize (H (to_first_attempt ++ [MinerStep (scenario_input (Raise RuntimeError))])
                  _ (scenario_input (Ok exhausted_reply)) _ eq_refl eq_refl eq_refl).
    discriminate H.
Qed.

(** C5, the failing input: the wallet answers [{"result": 1}].  The miner
    thread ends at [sys.exit(0)], but the process does not: the main
    thread is still in [listen_contract_events] and goes on reconnecting
    for as long as one cares to watch. *)
Theorem exit_in_miner_thread_keeps_process_alive :
  exists w w1,
    run zero_digest zero_digest ""
        (to_first_attempt ++ [MinerStep (scenario_input (Raise RuntimeError))])
        scenario_world = Some w /\
    miner_pc w = AtSubmit /\
    miner_step zero_digest zero_digest (scenario_input (Ok exhausted_reply)) w = Some w1 /\
    miner_pc w1 = Exited /\
    process_exited w1 = false /\
    forall n, run zero_digest zero_digest "" (reconnect_rounds n) w1 = Some w1.
Proof.
  eexists. eexists.
  split; [vm_compute; reflexivity|].
  split; [reflexivity|].
  split; [vm_compute; reflexivity|].
  split; [reflexivity|]. split; [reflexivity|].
  induction n as [|n IH]; [reflexivity|].
  unfold reconnect_rounds in *. cbn [repeat List.concat app].
  cbn [run]. exact IH.
Qed.

(** ** The scenario, step by step *)

Lemma ones_always_miss (data : bytes) :
  meets_difficulty (sha3_256d ones_digest data) 1000 = Ok false.
Proof. vm_compute. reflexivity. Qed.

Lemma missed_round (n : Z) (w : World) :
  searching n w -> 0 <= n < 2 ^ 64 ->
  exists w',
    run ones_digest ones_digest ""
        (repeat (MinerStep (scenario_input (Raise RuntimeError))) 3) w = Some w' /\
    searching (n + 1) w'.
Proof.
  intros (Epc & Er & El & Ed & Et & En) R.
  destruct (struct_pack_Q_ok n R) as (p & Ep & _).
  destruct w as [s pc l lp sub]. cbn in Epc, Er, El, Ed, Et, En. subst pc lp.
  cbn [repeat run]. unfold step at 1. cbn [process_exited listener_pc].
  unfold miner_step at 1. cbn [miner_pc locals state].
  unfold compute_final_hash. rewrite En, Ep. cbn [bind].
  cbn [l_difficulty set_local_hashes]. rewrite Ed, ones_always_miss.
  unfold step at 1. cbn [process_exited listener_pc goto with_locals].
  unfold miner_step at 1.
  cbn [miner_pc locals state goto with_locals set_nonce set_local_hashes
       local_hashes last_report nonce].
  assert (Hq : Qgtb (in_time (scenario_input (Raise RuntimeError)) - last_report l)%Q
                 HASHRATE_REPORT_INTERVAL = false)
    by (rewrite Et; reflexivity).
  rewrite Hq.
  destruct ((local_hashes l + 1) mod 100000 =? 0);
    unfold step; cbn [process_exited listener_pc goto with_locals];
    unfold miner_step; cbn [miner_pc state goto with_locals]; rewrite Er;
    (eexists; split; [reflexivity|]);
    unfold searching; cbn; repeat split; auto; lia.
Qed.

Lemma missed_rounds_advance (k : nat) :
  forall n w,
    searching n w -> 0 <= n -> n + Z.of_nat k <= 2 ^ 64 ->
    exists w',
      run ones_digest ones_digest "" (missed_rounds k) w = Some w' /\
      searching (n + Z.of_nat k) w'.
Proof.
  induction k as [|k IH]; intros n w Hs Hn Hk.
  - exists w. split; [reflexivity|]. now rewrite Z.add_0_r.
  - change (missed_rounds (S k))
      with (repeat (MinerStep (scenario_input (Raise RuntimeError))) 3
            ++ missed_rounds k).
    rewrite run_app.
    destruct (missed_round n w Hs ltac:(lia)) as (w1 & -> & Hs1).
    destruct (IH (n + 1) w1 Hs1 ltac:(lia) ltac:(lia)) as (w' & E & Hs').
    exists w'. split; [exact E|].
    replace (n + Z.of_nat (S k)) with (n + 1 + Z.of_nat k) by lia. exact Hs'.
Qed.

Lemma first_attempt_searching :
  exists w,
    run ones_digest ones_digest "" to_first_attempt scenario_world = Some w /\
    searching 7 w.
Proof.
  eexists. split; [vm_compute; reflexivity|].
  unfold searching. cbn. repeat split; reflexivity.
Qed.

(** C9 as first stated (the nonce wraps modulo 2^64) does not hold: in the
    scenario where every attempt misses and nothing asks for a restart,
    the miner arrives at nonce 2^64 - 1, and the attempt that misses there
    leaves the nonce at 2^64 instead of 0. *)
Lemma nonce_passes_2_64 :
  (exists w w',
     run ones_digest ones_digest ""
         (to_first_attempt ++ missed_rounds (Z.to_nat (2 ^ 64 - 8)))
         scenario_world = Some w /\
     miner_pc w = AtHash /\
     nonce (locals w) = 2 ^ 64 - 1 /\
     miner_step ones_digest ones_digest (scenario_input (Raise RuntimeError)) w
     = Some w' /\
     miner_pc w' = AtReport /\
     nonce (locals w') = 2 ^ 64) /\
  ~ (forall es w i w',
       run ones_digest ones_digest "" es scenario_world = Some w ->
       miner_pc w = AtHash ->
       miner_step ones_digest ones_digest i w = Some w' ->
       miner_pc w' = AtReport ->
       nonce (locals w') = (nonce (locals w) + 1) mod 2 ^ 64).
Proof.
  remember (Z.to_nat (2 ^ 64 - 8)) as k eqn:Hk.
  assert (Ek : Z.of_nat k = 2 ^ 64 - 8) by (subst k; apply Z2Nat.id; lia).
  clear Hk.
  destruct first_attempt_searching as (w0 & E0 & S0).
  destruct (missed_rounds_advance k 7 w0 S0 ltac:(lia) ltac:(lia)) as (w & E & S).
  replace (7 + Z.of_nat k) with (2 ^ 64 - 1) in S by lia.
  assert (Erun : run ones_digest ones_digest "" (to_first_attempt ++ missed_rounds k)
                   scenario_world = Some w)
    by (rewrite run_app, E0; exact E).
  destruct S as (Epc & Er & El & Ed & Et & En).
  assert (Estep : exists w',
             miner_step ones_digest ones_digest (scenario_input (Raise RuntimeError)) w
             = Some w' /\ miner_pc w' = AtReport /\ nonce (locals w') = 2 ^ 64).
  { destruct (struct_pack_Q_ok (2 ^ 64 - 1) ltac:(lia)) as (p & Ep & _).
    unfold miner_step. rewrite Epc. unfold compute_final_hash.
    rewrite En, Ep. cbn [bind]. cbn [l_difficulty set_local_hashes].
    rewrite Ed, ones_always_miss.
    eexists. split; [reflexivity|]. split; [reflexivity|].
    cbn [goto with_locals locals set_nonce set_local_hashes nonce].
    rewrite En. lia. }
  destruct Estep as (w' & Estep & Epc' & En').
  split.
  - exists w, w'. repeat split; assumption.
  - intro H. specialize (H _ w _ w' Erun Epc Estep Epc').
    rewrite En, En' in H.
    replace (2 ^ 64 - 1 + 1) with (2 ^ 64) in H by lia.
    rewrite Z.mod_same in H by lia. lia.
Qed.

(** ** The theorems at work on the scenario *)

Lemma no_search_while_awaiting_witness :
  exists w,
    run zero_digest zero_digest ""
        (repeat (MinerStep (scenario_input (Raise RuntimeError))) 10)
        scenario_world = Some w /\
    awaiting_confirmation (state w) = true /\
    in_search_cycle (miner_pc w) = false.
Proof.
  destruct (run zero_digest zero_digest ""
              (repeat (MinerStep (scenario_input (Raise RuntimeError))) 10)
              scenario_world) as [w|] eqn:E; [|vm_compute in E; discriminate E].
  assert (A : awaiting_confirmation (state w) = true)
    by (vm_compute in E; injection E as <-; reflexivity).
  exists w. split; [reflexivity|]. split; [exact A|].
  exact (proj1 (no_search_while_awaiting zero_digest zero_digest "" _
                  (repeat x01 34) (inject_Z 0) (inject_Z 0) w E A)).
Defined.

Lemma awaiting_confirmation_writers_witness :
  (exists w w',
     run zero_digest zero_digest ""
         (repeat (MinerStep (scenario_input (Raise RuntimeError))) 9)
         scenario_world = Some w /\
     step zero_digest zero_digest ""
          (MinerStep (scenario_input (Raise RuntimeError))) w = Some w' /\
     miner_pc w = AtSetAwaiting) /\
  (exists w w',
     run zero_digest zero_digest ""
         (repeat (MinerStep (scenario_input (Raise RuntimeError))) 10
          ++ [ListenerStep Connected])
         scenario_world = Some w /\
     step zero_digest zero_digest ""
          (ListenerStep (Message (target_event ""))) w = Some w' /\
     is_target_event "" (target_event "")).
Proof.
  split.
  - destruct (run zero_digest zero_digest ""
                (repeat (MinerStep (scenario_input (Raise RuntimeError))) 9)
                scenario_world) as [w|] eqn:E; [|vm_compute in E; discriminate E].
    destruct (step zero_digest zero_digest ""
                (MinerStep (scenario_input (Raise RuntimeError))) w) as [w'|] eqn:E';
      [|vm_compute in E; injection E as <-; vm_compute in E'; discriminate E'].
    assert (A : awaiting_confirmation (state w) = false)
      by (vm_compute in E; injection E as <-; reflexivity).
    assert (A' : awaiting_confirmation (state w') = true)
      by (vm_compute in E; injection E as <-; vm_compute in E';
          injection E' as <-; reflexivity).
    exists w, w'. split; [reflexivity|]. split; [exact E'|].
    destruct (awaiting_confirmation_writers zero_digest zero_digest "" _
                (repeat x01 34) (inject_Z 0) (inject_Z 0) w _ w' E E')
      as (Up & _ & _).
    destruct (Up A A') as (i & earlier & _ & Epc & _). exact Epc.
  - destruct (run zero_digest zero_digest ""
                (repeat (MinerStep (scenario_input (Raise RuntimeError))) 10
                 ++ [ListenerStep Connected])
                scenario_world) as [w|] eqn:E; [|vm_compute in E; discriminate E].
    destruct (step zero_digest zero_digest ""
                (ListenerStep (Message (target_event ""))) w) as [w'|] eqn:E';
      [|vm_compute in E; injection E as <-; vm_compute in E'; discriminate E'].
    assert (A : awaiting_confirmation (state w) = true)
      by (vm_compute in E; injection E as <-; reflexivity).
    assert (A' : awaiting_confirmation (state w') = false)
      by (vm_compute in E; injection E as <-; vm_compute in E';
          injection E' as <-; reflexivity).
    exists w, w'. split; [reflexivity|]. split; [exact E'|].
    destruct (awaiting_confirmation_writers zero_digest zero_digest "" _
                (repeat x01 34) (inject_Z 0) (inject_Z 0) w _ w' E E')
      as (_ & Down & _).
    destruct (Down A A') as (data & Ed & T).
    injection Ed as <-. exact T.
Defined.

Lemma initial_nonce_range_witness :
  exists w w',
    run zero_digest zero_digest ""
        (repeat (MinerStep (scenario_input (Raise RuntimeError))) 5)
        scenario_world = Some w /\
    miner_step zero_digest zero_digest (scenario_input (Raise RuntimeError)) w
    = Some w' /\
    0 <= nonce (locals w') <= 2 ^ 32.
Proof.
  destruct (run zero_digest zero_digest ""
              (repeat (MinerStep (scenario_input (Raise RuntimeError))) 5)
              scenario_world) as [w|] eqn:E; [|vm_compute in E; discriminate E].
  destruct (miner_step zero_digest zero_digest (scenario_input (Raise RuntimeError)) w)
    as [w'|] eqn:E';
    [|vm_compute in E; injection E as <-; vm_compute in E'; discriminate E'].
  assert (P : miner_pc w = AtHeader)
    by (vm_compute in E; injection E as <-; reflexivity).
  assert (P' : miner_pc w' = AtHotTest)
    by (vm_compute in E; injection E as <-; vm_compute in E';
        injection E' as <-; reflexivity).
  exists w, w'. split; [reflexivity|]. split; [exact E'|].
  destruct (initial_nonce_range zero_digest zero_digest "" _
              (repeat x01 34) (inject_Z 0) (inject_Z 0) w E) as (Start & _ & _).
  exact (proj2 (Start _ w' P E' P')).
Defined.

Lemma nonce_increment_unbounded_witness :
  exists w w',
    run ones_digest ones_digest "" to_first_attempt scenario_world = Some w /\
    miner_step ones_digest ones_digest (scenario_input (Raise RuntimeError)) w
    = Some w' /\
    0 <= nonce (locals w) < 2 ^ 64 /\
    miner_pc w' <> Crashed StructError.
Proof.
  destruct (run ones_digest ones_digest "" to_first_attempt scenario_world)
    as [w|] eqn:E; [|vm_compute in E; discriminate E].
  destruct (miner_step ones_digest ones_digest (scenario_input (Raise RuntimeError)) w)
    as [w'|] eqn:E';
    [|vm_compute in E; injection E as <-; vm_compute in E'; discriminate E'].
  assert (P : miner_pc w = AtHash)
    by (vm_compute in E; injection E as <-; reflexivity).
  assert (H : local_hashes (locals w) < 2 ^ 64 - 2 ^ 32)
    by (vm_compute in E; injection E as <-; reflexivity).
  exists w, w'. split; [reflexivity|]. split; [exact E'|].
  destruct (nonce_increment_unbounded ones_digest ones_digest "" _
              (repeat x01 34) (inject_Z 0) (inject_Z 0) w _ w' E P E')
    as (_ & Below & _).
  exact (Below H).
Defined.

(** * Further properties of the script *)

(** ** Which addresses are accepted *)

Lemma split_on_length (sep : ascii) (s : string) :
  forall cur, List.length (split_on sep cur s) = S (count_char sep s).
Proof.
  induction s as [|c t IH]; intro cur; cbn [split_on count_char]; [reflexivity|].
  destruct (Ascii.eqb c sep); cbn [List.length]; now rewrite IH.
Qed.

Lemma str_index_has_char (c : ascii) (s : string) :
  (has_char c s = true -> exists i, str_index c s = Ok i /\ 0 <= i < Z.of_nat (String.length s)) /\
  (has_char c s = false -> str_index c s = Raise ValueError).
Proof.
  induction s as [|d t [IHt IHf]]; cbn [has_char str_index String.length].
  - split; [discriminate | reflexivity].
  - destruct (Ascii.eqb c d); cbn [orb].
    + split; [|discriminate]. intros _. exists 0. split; [reflexivity | lia].
    + split; intro H.
      * destruct (IHt H) as (i & -> & R). exists (i + 1). split; [reflexivity | lia].
      * now rewrite (IHf H).
Qed.

Lemma mapM_Forall {A B : Type} (f : A -> outcome B) (l : list A) :
  Forall (fun a => exists b, f a = Ok b) l -> exists l', mapM f l = Ok l'.
Proof.
  induction 1 as [|a t [b Hb] _ [bs Hbs]]; cbn [mapM].
  - now exists [].
  - rewrite Hb. cbn [bind]. rewrite Hbs. cbn [bind]. now exists (b :: bs).
Qed.

Lemma mapM_inv {A B : Type} (f : A -> outcome B) (l : list A) (l' : list B) :
  mapM f l = Ok l' -> Forall2 (fun a b => f a = Ok b) l l'.
Proof.
  revert l'. induction l as [|a t IH]; intros l' H; cbn [mapM] in H.
  - injection H as <-. constructor.
  - destruct (f a) as [b|e] eqn:E; [|discriminate]. cbn [bind] in H.
    destruct (mapM f t) as [bs|e]; [|discriminate]. injection H as <-.
    constructor; [exact E | now apply IH].
Qed.

Lemma mapM_raises {A B : Type} (f : A -> outcome B) (l : list A) (e : PyExc) :
  mapM f l = Raise e -> exists a, In a l /\ f a = Raise e.
Proof.
  induction l as [|a t IH]; cbn [mapM]; [discriminate|].
  destruct (f a) as [b|e'] eqn:E; cbn [bind].
  - destruct (mapM f t) as [bs|e'']; [discriminate|]. cbn [bind].
    intro H. injection H as ->. destruct (IH eq_refl) as (x & Hx & Ex).
    exists x. split; [now right | exact Ex].
  - intro H. injection H as ->. exists a. split; [now left | exact E].
Qed.

Lemma bytes_of_ints_in_range (l : list Z) :
  Forall (fun v => 0 <= v < 256) l -> exists b, bytes_of_ints l = Ok b.
Proof.
  intro H. apply mapM_Forall. induction H as [|v t Hv _ IH]; constructor; [|exact IH].
  exists (byte_of_Z v).
  replace ((0 <=? v) && (v <? 256)) with true; [reflexivity|].
  symmetry. apply andb_true_iff. split; [apply Z.leb_le | apply Z.ltb_lt]; lia.
Qed.

Lemma Forall_firstn {A : Type} (P : A -> Prop) (n : nat) (l : list A) :
  Forall P l -> Forall P (firstn n l).
Proof.
  intro H. revert n. induction H as [|a t Ha _ IH]; intro n.
  - rewrite firstn_nil. constructor.
  - destruct n; cbn [firstn]; constructor; auto.
Qed.

Lemma decode_xet_address_items (address : string) (l : list Z) :
  decode_xet_address address = Ok l -> Forall (fun v => 0 <= v < 256) l.
Proof.
  unfold decode_xet_address.
  destruct (str_split ":"%char address) as [|prefix [|data_part [|x rest]]];
    try discriminate.
  destruct (mapM _ _) as [data_5bit|e]; [|discriminate].
  cbn [bind]. intro H.
  assert (E : l = 0 :: firstn 33 (regroup data_5bit 0 0 [])) by congruence.
  subst l. clear H.
  constructor; [lia|].
  apply Forall_firstn.
  apply (regroup_items data_5bit 0 0 []); [lia | constructor].
Qed.

(** X1: [bytes(decode_xet_address(address))] succeeds exactly when the
    address splits at one colon into two fields and every character of
    the second field is in the charset; an address without exactly one
    colon raises [ValueError], and no other exception is ever raised. *)
Theorem address_bytes_of_accepts (address : string) :
  ((exists b, address_bytes_of address = Ok b) <->
   exists prefix data_part,
     str_split ":"%char address = [prefix; data_part] /\
     forall c, In c (list_ascii_of_string data_part) -> has_char c charset = true) /\
  (count_char ":"%char address <> 1%nat -> address_bytes_of address = Raise ValueError) /\
  (forall e, address_bytes_of address = Raise e -> e = ValueError).
Proof.
  assert (Hsplit : List.length (str_split ":"%char address)
                   = S (count_char ":"%char address))
    by apply split_on_length.
  unfold address_bytes_of.
  destruct (decode_xet_address address) as [l|e0] eqn:D; cbn [bind].
  - pose proof (decode_xet_address_items address l D) as Hl.
    destruct (bytes_of_ints_in_range l Hl) as [b Hb]. rewrite Hb.
    unfold decode_xet_address in D.
    destruct (str_split ":"%char address) as [|prefix [|data_part [|x rest]]];
      try discriminate.
    destruct (mapM _ _) as [data_5bit|e] eqn:M; [|discriminate].
    split; [|split].
    + split; [|intros _; now exists b].
      intros _. exists prefix, data_part. split; [reflexivity|].
      intros c Hc. apply mapM_inv in M.
      destruct (has_char c charset) eqn:Hh; [reflexivity|].
      apply (proj2 (str_index_has_char c charset)) in Hh.
      clear - M Hc Hh. induction M as [|a v t vs Ha _ IH]; [contradiction|].
      destruct Hc as [->|Hc]; [congruence | now apply IH].
    + intro Hc. cbn [List.length] in Hsplit. lia.
    + discriminate.
  - unfold decode_xet_address in D.
    assert (E0 : e0 = ValueError /\
                 (forall prefix data_part,
                     str_split ":"%char address = [prefix; data_part] ->
                     exists c, In c (list_ascii_of_string data_part) /\
                               has_char c charset = false)).
    { destruct (str_split ":"%char address) as [|prefix [|data_part [|x rest]]];
        try (injection D as <-; split; [reflexivity | discriminate]).
      destruct (mapM _ _) as [data_5bit|e] eqn:M; [discriminate|].
      cbn [bind] in D. injection D as ->.
      destruct (mapM_raises _ _ _ M) as (c & Hc & Ec).
      destruct (has_char c charset) eqn:Hh.
      - destruct (proj1 (str_index_has_char c charset) Hh) as (i & Ei & _). congruence.
      - rewrite (proj2 (str_index_has_char c charset) Hh) in Ec.
        injection Ec as <-. split; [reflexivity|].
        intros p d H. injection H as <- <-. now exists c. }
    destruct E0 as (-> & Hbad).
    split; [|split].
    + split; [intros [b Hb]; discriminate|].
      intros (prefix & data_part & S & Hall).
      destruct (Hbad _ _ S) as (c & Hc & Hf). rewrite (Hall c Hc) in Hf. discriminate.
    + reflexivity.
    + intros e H. now injection H as <-.
Qed.

Lemma address_bytes_of_accepts_witness :
  address_bytes_of "xet4cka26" = Raise ValueError /\
  address_bytes_of "a:b:c" = Raise ValueError.
Proof.
  split.
  - apply (proj1 (proj2 (address_bytes_of_accepts "xet4cka26"))). vm_compute. lia.
  - apply (proj1 (proj2 (address_bytes_of_accepts "a:b:c"))). vm_compute. lia.
Defined.

(** ** What the decoded bytes are *)

Lemma lor_shiftl_5 (acc v : Z) :
  0 <= v < 32 -> Z.lor (Z.shiftl acc 5) v = acc * 32 + v.
Proof.
  intro Hv.
  assert (L : Z.land (Z.shiftl acc 5) v = 0).
  { apply Z.bits_inj'. intros n Hn.
    rewrite Z.land_spec, Z.bits_0.
    destruct (Z.lt_ge_cases n 5) as [Hlt|Hge].
    - now rewrite Z.shiftl_spec_low.
    - apply andb_false_iff. right.
      destruct (Z.eq_dec v 0) as [->|Hnz]; [apply Z.bits_0|].
      apply Z.bits_above_log2; [lia|].
      assert (Z.log2 v < 5) by (apply Z.log2_lt_pow2; lia). lia. }
  rewrite <- Z.lxor_lor by exact L.
  rewrite <- Z.add_nocarry_lxor by exact L.
  rewrite Z.shiftl_mul_pow2 by lia. reflexivity.
Qed.

Lemma big_endian_ints_snoc (l : list Z) (x : Z) :
  big_endian_ints (l ++ [x]) = big_endian_ints l * 256 + x.
Proof.
  unfold big_endian_ints. now rewrite fold_left_app.
Qed.

Lemma shift_in_group (acc v bits : Z) :
  0 <= acc -> 0 <= v < 32 -> 0 <= bits ->
  (acc * 32 + v) / 2 ^ (bits + 5) = acc / 2 ^ bits.
Proof.
  intros Ha Hv Hb.
  rewrite Z.add_comm with (n := bits), Z.pow_add_r by lia.
  rewrite <- Z.div_div by lia.
  change (2 ^ 5) with 32.
  rewrite Z.div_add_l by lia. rewrite (Z.div_small v 32) by lia.
  now rewrite Z.add_0_r.
Qed.

Lemma regroup_value (data_5bit : list Z) :
  forall acc bits result,
    0 <= bits < 8 -> 0 <= acc ->
    Forall (fun v => 0 <= v < 32) data_5bit ->
    big_endian_ints result = acc / 2 ^ bits ->
    big_endian_ints (regroup data_5bit acc bits result)
    = fold_left (fun a v => a * 32 + v) data_5bit acc
      / 2 ^ ((bits + 5 * Z.of_nat (List.length data_5bit)) mod 8).
Proof.
  induction data_5bit as [|value rest IH]; intros acc bits result Hb Ha Hd Hr.
  - cbn [regroup fold_left List.length].
    replace ((bits + 5 * Z.of_nat 0) mod 8) with bits
      by (rewrite Z.mod_small; lia).
    exact Hr.
  - inversion Hd as [|v t Hv Hrest]; subst v t.
    cbn [regroup fold_left]. rewrite drain_once by lia.
    rewrite lor_shiftl_5 by exact Hv.
    assert (Ha' : 0 <= acc * 32 + value) by nia.
    destruct (8 <=? bits + 5) eqn:E.
    + apply Z.leb_le in E.
      rewrite IH; [| lia | exact Ha' | exact Hrest |].
      * f_equal. f_equal. cbn [List.length]. rewrite Nat2Z.inj_succ.
        Z.div_mod_to_equations. lia.
      * rewrite big_endian_ints_snoc, Hr.
        change 255 with (Z.ones 8). rewrite Z.land_ones by lia.
        rewrite Z.shiftr_div_pow2 by lia.
        rewrite <- (shift_in_group acc value bits Ha Hv) by lia.
        replace (bits + 5) with (bits + 5 - 8 + 8) at 1 by lia.
        rewrite Z.pow_add_r by lia. rewrite <- Z.div_div by lia.
        change (2 ^ 8) with 256.
        pose proof (Z.div_mod ((acc * 32 + value) / 2 ^ (bits + 5 - 8)) 256 ltac:(lia)).
        lia.
    + apply Z.leb_gt in E.
      rewrite IH; [| lia | exact Ha' | exact Hrest |].
      * f_equal. f_equal. cbn [List.length]. rewrite Nat2Z.inj_succ.
        Z.div_mod_to_equations. lia.
      * rewrite Hr. symmetry. now apply shift_in_group; lia.
Qed.

Lemma charset_index_range (c : ascii) (i : Z) :
  str_index c charset = Ok i -> 0 <= i < 32.
Proof.
  intro H.
  destruct (has_char c charset) eqn:Hh.
  - destruct (proj1 (str_index_has_char c charset) Hh) as (j & Ej & R).
    rewrite Ej in H. injection H as <-. exact R.
  - rewrite (proj2 (str_index_has_char c charset) Hh) in H. discriminate.
Qed.

(** X2: a decoded address is a zero followed by the first 33 of the
    regrouped bytes, and the regrouped bytes are the leading [5n // 8]
    whole bytes of the bit string spelled by the [n] data characters:
    read as one big-endian number they equal the base-32 number of the
    characters with the [5n mod 8] left-over low bits dropped. *)
Theorem decode_xet_address_value (address : string) (l : list Z) :
  decode_xet_address address = Ok l ->
  exists prefix data_part data_5bit decoded,
    str_split ":"%char address = [prefix; data_part] /\
    mapM (fun c => str_index c charset) (list_ascii_of_string data_part)
    = Ok data_5bit /\
    l = 0 :: firstn 33 decoded /\
    Forall (fun v => 0 <= v < 256) decoded /\
    Z.of_nat (List.length decoded) = 5 * Z.of_nat (String.length data_part) / 8 /\
    big_endian_ints decoded
    = base32_value data_5bit / 2 ^ ((5 * Z.of_nat (String.length data_part)) mod 8).
Proof.
  unfold decode_xet_address.
  destruct (str_split ":"%char address) as [|prefix [|data_part [|x rest]]];
    try discriminate.
  destruct (mapM _ _) as [data_5bit|e] eqn:M; [|discriminate].
  cbn [bind]. intro H.
  assert (E : l = 0 :: firstn 33 (regroup data_5bit 0 0 [])) by congruence.
  clear H.
  pose proof (mapM_length _ _ _ M) as Hlen. rewrite list_ascii_length in Hlen.
  exists prefix, data_part, data_5bit, (regroup data_5bit 0 0 []).
  split; [reflexivity|]. split; [exact M|]. split; [exact E|].
  split; [apply regroup_items; [lia | constructor]|].
  split.
  - rewrite (regroup_length data_5bit 0 0 []) by lia.
    rewrite Hlen. cbn [List.length]. reflexivity.
  - rewrite (regroup_value data_5bit 0 0 []); try lia; try reflexivity.
    + rewrite Hlen. reflexivity.
    + apply mapM_inv in M. clear - M.
      induction M as [|c v t vs Hc _ IH]; constructor; [|exact IH].
      now apply charset_index_range in Hc.
Qed.

Lemma decode_xet_address_value_witness :
  exists decoded,
    decode_xet_address "xet:pzq" = Ok (0 :: firstn 33 decoded) /\
    big_endian_ints decoded = base32_value [1; 2; 0] / 2 ^ 7.
Proof.
  destruct (decode_xet_address_value "xet:pzq" [0; 8] eq_refl)
    as (prefix & data_part & data_5bit & decoded & S & M & E & _ & _ & V).
  exists decoded. split.
  - rewrite <- E. reflexivity.
  - injection S as _ <-. injection M as <-. exact V.
Defined.

(** ** What the decoder does not look at *)

Lemma split_on_before_sep (sep : ascii) (p d : string) :
  forall cur,
    count_char sep p = 0%nat ->
    split_on sep cur (p ++ String sep d)
    = string_of_list_ascii (rev cur ++ list_ascii_of_string p) :: split_on sep [] d.
Proof.
  induction p as [|c t IH]; intros cur Hc.
  - cbn [append split_on list_ascii_of_string]. rewrite Ascii.eqb_refl.
    now rewrite app_nil_r.
  - cbn [count_char] in Hc. cbn [append split_on list_ascii_of_string].
    destruct (Ascii.eqb c sep); [discriminate|].
    rewrite IH by exact Hc. cbn [rev]. now rewrite <- app_assoc.
Qed.

Lemma split_on_no_sep (sep : ascii) (s : string) :
  forall cur,
    count_char sep s = 0%nat ->
    split_on sep cur s = [string_of_list_ascii (rev cur ++ list_ascii_of_string s)].
Proof.
  induction s as [|c t IH]; intros cur Hc.
  - cbn [split_on list_ascii_of_string]. now rewrite app_nil_r.
  - cbn [count_char] in Hc. cbn [split_on list_ascii_of_string].
    destruct (Ascii.eqb c sep); [discriminate|].
    rewrite IH by exact Hc. cbn [rev]. now rewrite <- app_assoc.
Qed.

(** X3: the text before the colon is never looked at: two addresses whose
    part from the colon on is the same decode to the same result,
    whatever their prefixes. *)
Theorem decode_xet_address_ignores_prefix (p p' d : string) :
  count_char ":"%char p = 0%nat ->
  count_char ":"%char p' = 0%nat ->
  decode_xet_address (p ++ String ":"%char d)
  = decode_xet_address (p' ++ String ":"%char d).
Proof.
  intros Hp Hp'. unfold decode_xet_address, str_split.
  rewrite !split_on_before_sep by assumption.
  destruct (split_on ":"%char [] d) as [|data_part [|x rest]]; reflexivity.
Qed.

Lemma decode_xet_address_ignores_prefix_witness :
  decode_xet_address "xet:pzq" = decode_xet_address "anything at all:pzq".
Proof.
  apply (decode_xet_address_ignores_prefix "xet" "anything at all" "pzq");
    reflexivity.
Defined.

Lemma count_char_app (c : ascii) (a b : string) :
  count_char c (a ++ b) = (count_char c a + count_char c b)%nat.
Proof.
  induction a as [|d t IH]; cbn [append count_char]; [reflexivity|].
  destruct (Ascii.eqb d c); cbn; now rewrite IH.
Qed.

Lemma list_ascii_app (a b : string) :
  list_ascii_of_string (a ++ b) = list_ascii_of_string a ++ list_ascii_of_string b.
Proof.
  induction a as [|c t IH]; cbn [append list_ascii_of_string app]; [reflexivity|].
  now rewrite IH.
Qed.

Lemma mapM_app {A B : Type} (f : A -> outcome B) (x y : list A) (l : list B) :
  mapM f (x ++ y) = Ok l ->
  exists a b, mapM f x = Ok a /\ mapM f y = Ok b /\ l = a ++ b.
Proof.
  revert l. induction x as [|h t IH]; intros l H.
  - exists [], l. cbn [app] in H. repeat split; assumption.
  - cbn [app mapM] in H |- *. destruct (f h) as [v|e]; [|discriminate].
    cbn [bind] in H |- *.
    destruct (mapM f (t ++ y)) as [vs|e] eqn:E; [|discriminate].
    injection H as <-.
    destruct (IH vs eq_refl) as (a & b & -> & Hb & ->).
    exists (v :: a), b. repeat split; [exact Hb].
Qed.

Lemma regroup_extends (data_5bit : list Z) :
  forall acc bits result,
    0 <= bits < 8 ->
    exists more, regroup data_5bit acc bits result = result ++ more.
Proof.
  induction data_5bit as [|value rest IH]; intros acc bits result Hb.
  - exists []. cbn [regroup]. now rewrite app_nil_r.
  - cbn [regroup]. rewrite drain_once by lia.
    destruct (8 <=? bits + 5) eqn:E.
    + apply Z.leb_le in E.
      destruct (IH (Z.lor (Z.shiftl acc 5) value) (bits + 5 - 8)
                  (result ++ [Z.land (Z.shiftr (Z.lor (Z.shiftl acc 5) value)
                                        (bits + 5 - 8)) 255]) ltac:(lia))
        as [more ->].
      eexists. rewrite <- app_assoc. reflexivity.
    + apply Z.leb_gt in E. apply IH. lia.
Qed.

Lemma regroup_app (a b : list Z) :
  forall acc bits result,
    0 <= bits < 8 ->
    exists more, regroup (a ++ b) acc bits result = regroup a acc bits result ++ more.
Proof.
  induction a as [|value rest IH]; intros acc bits result Hb.
  - cbn [app regroup]. now apply regroup_extends.
  - cbn [app regroup]. rewrite drain_once by lia.
    destruct (8 <=? bits + 5) eqn:E.
    + apply Z.leb_le in E. apply IH. lia.
    + apply Z.leb_gt in E. apply IH. lia.
Qed.

(** X4: only the first 53 characters after the colon count.  When an
    address with more data characters is accepted, cutting it after the
    53rd gives the same bytes: whatever follows (the checksum of a real
    address) is checked against the charset and otherwise ignored. *)
Theorem decode_xet_address_ignores_tail (p d1 d2 : string) (l : list Z) :
  count_char ":"%char p = 0%nat ->
  String.length d1 = 53%nat ->
  decode_xet_address (p ++ String ":"%char (d1 ++ d2)) = Ok l ->
  decode_xet_address (p ++ String ":"%char d1) = Ok l.
Proof.
  intros Hp Hlen. unfold decode_xet_address, str_split.
  rewrite !split_on_before_sep by exact Hp.
  pose proof (split_on_length ":"%char (d1 ++ d2) []) as L.
  destruct (split_on ":"%char [] (d1 ++ d2)) as [|data_part [|x rest]] eqn:S;
    try discriminate.
  cbn [List.length] in L.
  assert (C : count_char ":"%char (d1 ++ d2) = 0%nat) by lia.
  rewrite split_on_no_sep in S by exact C.
  cbn [rev app] in S. rewrite string_of_list_ascii_of_string in S.
  injection S as <-.
  rewrite count_char_app in C.
  rewrite split_on_no_sep by lia.
  cbn [rev app]. rewrite string_of_list_ascii_of_string.
  rewrite list_ascii_app.
  destruct (mapM _ (list_ascii_of_string d1 ++ list_ascii_of_string d2))
    as [data_5bit|e] eqn:M; [|discriminate].
  destruct (mapM_app _ _ _ _ M) as (a & b & Ma & _ & ->).
  rewrite Ma. cbn [bind]. intro H.
  assert (E : l = 0 :: firstn 33 (regroup (a ++ b) 0 0 [])) by congruence.
  clear H. subst l. do 2 f_equal.
  destruct (regroup_app a b 0 0 [] ltac:(lia)) as [more ->].
  assert (La : List.length (regroup a 0 0 []) = 33%nat).
  { apply Nat2Z.inj. rewrite (regroup_length a 0 0 []) by lia.
    apply mapM_length in Ma. rewrite list_ascii_length, Hlen in Ma.
    rewrite Ma. reflexivity. }
  rewrite firstn_app, La. rewrite Nat.sub_diag. cbn [firstn].
  now rewrite app_nil_r.
Qed.

Lemma decode_xet_address_ignores_tail_witness :
  exists l,
    decode_xet_address example_address = Ok l /\
    decode_xet_address "xet:4cka26kpvq6nj93lguycywn8flccvrf537dzqa0x0jyhawddepfsq" = Ok l.
Proof.
  destruct (decode_xet_address example_address) as [l|e] eqn:E; [|discriminate E].
  exists l. split; [reflexivity|].
  apply (decode_xet_address_ignores_tail "xet"
           "4cka26kpvq6nj93lguycywn8flccvrf537dzqa0x0jyhawddepfsq" "tka05w" l);
    [reflexivity | reflexivity | exact E].
Defined.

(** ** The header *)

Lemma int_to_bytes_little_out_of_range (n : Z) (len : nat) :
  n < 0 \/ 2 ^ (8 * Z.of_nat len) <= n ->
  int_to_bytes_little n len = Raise OverflowError.
Proof.
  intro H. unfold int_to_bytes_little.
  destruct (n <? 0) eqn:E1; [reflexivity|].
  destruct (n <? 2 ^ (8 * Z.of_nat len)) eqn:E2; [|reflexivity].
  apply Z.ltb_ge in E1. apply Z.ltb_lt in E2. lia.
Qed.

Lemma app_inv_length {A : Type} (a a' b b' : list A) :
  List.length a = List.length a' -> a ++ b = a' ++ b' -> a = a' /\ b = b'.
Proof.
  revert a'. induction a as [|x t IH]; intros [|x' t'] L H; try discriminate L.
  - split; [reflexivity | exact H].
  - cbn [app] in H. injection H as -> H. injection L as L.
    destruct (IH t' L H) as [-> ->]. split; reflexivity.
Qed.

Section Header.

Variable blake3_digest : bytes -> bytes.

(** X5: [generate_header_hash] raises exactly when the block number or
    the timestamp does not fit an unsigned 64-bit integer or the
    difficulty does not fit an unsigned 256-bit one: [struct.error] for
    the block number (checked first) and the timestamp, [OverflowError]
    for the difficulty.  Nothing else about the inputs, not even the
    lengths of the miner address and the previous hash, makes it fail. *)
Theorem generate_header_hash_raises
    (block_number : Z) (miner : bytes) (difficulty : Z) (prev_hash : bytes) (ts : Z) :
  ((exists e, generate_header_hash blake3_digest block_number miner difficulty
                prev_hash ts = Raise e) <->
   ~ (0 <= block_number < 2 ^ 64 /\ 0 <= difficulty < 2 ^ 256 /\ 0 <= ts < 2 ^ 64)) /\
  (~ 0 <= block_number < 2 ^ 64 ->
   generate_header_hash blake3_digest block_number miner difficulty prev_hash ts
   = Raise StructError) /\
  (0 <= block_number < 2 ^ 64 -> ~ 0 <= difficulty < 2 ^ 256 ->
   generate_header_hash blake3_digest block_number miner difficulty prev_hash ts
   = Raise OverflowError).
Proof.
  unfold generate_header_hash.
  destruct (Z_le_dec 0 block_number) as [B0|B0];
    [destruct (Z_lt_dec block_number (2 ^ 64)) as [B1|B1]|].
  2, 3: rewrite struct_pack_Q_out_of_range by lia; cbn [bind];
    (split; [split; [intros _; lia | intros _; eexists; reflexivity]
            | split; [reflexivity | lia]]).
  destruct (struct_pack_Q_ok block_number ltac:(lia)) as (h & -> & _). cbn [bind].
  destruct (Z_le_dec 0 difficulty) as [D0|D0];
    [destruct (Z_lt_dec difficulty (2 ^ 256)) as [D1|D1]|].
  2, 3: rewrite int_to_bytes_little_out_of_range by (change (8 * Z.of_nat 32) with 256; lia);
    cbn [bind];
    (split; [split; [intros _; lia | intros _; eexists; reflexivity]
            | split; [lia | reflexivity]]).
  destruct (int_to_bytes_little_ok difficulty 32 ltac:(change (8 * Z.of_nat 32) with 256; lia))
    as (d & -> & _). cbn [bind].
  destruct (Z_le_dec 0 ts) as [T0|T0];
    [destruct (Z_lt_dec ts (2 ^ 64)) as [T1|T1]|].
  2, 3: rewrite struct_pack_Q_out_of_range by lia; cbn [bind];
    (split; [split; [intros _; lia | intros _; eexists; reflexivity]
            | split; [lia | lia]]).
  destruct (struct_pack_Q_ok ts ltac:(lia)) as (t & -> & _). cbn [bind].
  split; [split; [intros [e He]; discriminate He | lia] | split; lia].
Qed.

End Header.

Lemma generate_header_hash_raises_witness :
  generate_header_hash zero_digest (-1) [] 1000 [] 0 = Raise StructError /\
  generate_header_hash zero_digest 100 [] (2 ^ 256) [] 0 = Raise OverflowError.
Proof.
  split.
  - apply (proj1 (proj2 (generate_header_hash_raises zero_digest (-1) [] 1000 [] 0))).
    lia.
  - apply (proj2 (proj2 (generate_header_hash_raises zero_digest 100 [] (2 ^ 256) [] 0)));
      lia.
Defined.

Lemma generate_header_hash_ok_range
    (digest : bytes -> bytes)
    (block_number : Z) (miner : bytes) (difficulty : Z) (prev_hash : bytes) (ts : Z)
    (h : bytes) :
  generate_header_hash digest block_number miner difficulty prev_hash ts = Ok h ->
  0 <= block_number < 2 ^ 64 /\ 0 <= difficulty < 2 ^ 256 /\ 0 <= ts < 2 ^ 64.
Proof.
  unfold generate_header_hash, struct_pack_Q, int_to_bytes_little.
  change (8 * Z.of_nat 32) with 256.
  destruct ((0 <=? block_number) && (block_number <? 2 ^ 64)) eqn:B; [|discriminate].
  cbn [bind].
  destruct (difficulty <? 0) eqn:D0; [discriminate|].
  destruct (difficulty <? 2 ^ 256) eqn:D1; [|discriminate].
  cbn [bind].
  destruct ((0 <=? ts) && (ts <? 2 ^ 64)) eqn:T; [|discriminate].
  intros _.
  apply andb_true_iff in B. destruct B as [B0 B1].
  apply andb_true_iff in T. destruct T as [T0 T1].
  apply Z.leb_le in B0, T0. apply Z.ltb_lt in B1, T1, D1. apply Z.ltb_ge in D0.
  lia.
Qed.

(** X6: the bytes that are hashed determine the template.  With the
    digest replaced by the identity, so that the header itself comes out,
    two templates whose miner addresses have the same length and whose
    headers are equal have the same block number, miner address,
    difficulty, previous hash and timestamp. *)
Theorem header_is_injective
    (block_number block_number' : Z) (miner miner' : bytes)
    (difficulty difficulty' : Z) (prev_hash prev_hash' : bytes) (ts ts' : Z)
    (header : bytes) :
  List.length miner = List.length miner' ->
  generate_header_hash (fun data => data) block_number miner difficulty prev_hash ts
  = Ok header ->
  generate_header_hash (fun data => data) block_number' miner' difficulty' prev_hash' ts'
  = Ok header ->
  block_number = block_number' /\ miner = miner' /\ difficulty = difficulty' /\
  prev_hash = prev_hash' /\ ts = ts'.
Proof.
  intros Lm H H'.
  destruct (generate_header_hash_ok_range _ _ _ _ _ _ _ H) as (Hb & Hd & Ht).
  destruct (generate_header_hash_ok_range _ _ _ _ _ _ _ H') as (Hb' & Hd' & Ht').
  unfold generate_header_hash in H, H'.
  destruct (struct_pack_Q_ok block_number Hb) as (h & Eh & Lh & Vh).
  destruct (struct_pack_Q_ok block_number' Hb') as (h' & Eh' & Lh' & Vh').
  destruct (int_to_bytes_little_ok difficulty 32 Hd) as (d & Ed & Ld & Vd).
  destruct (int_to_bytes_little_ok difficulty' 32 Hd') as (d' & Ed' & Ld' & Vd').
  destruct (struct_pack_Q_ok ts Ht) as (t & Et & Lt & Vt).
  destruct (struct_pack_Q_ok ts' Ht') as (t' & Et' & Lt' & Vt').
  rewrite Eh, Ed, Et in H. rewrite Eh', Ed', Et' in H'.
  cbn [bind app] in H, H'.
  assert (E : (((h ++ miner) ++ d) ++ prev_hash) ++ t
              = (((h' ++ miner') ++ d') ++ prev_hash') ++ t') by congruence.
  clear H H'. rewrite <- !app_assoc in E.
  apply app_inv_length in E; [|congruence]. destruct E as [E1 E].
  apply app_inv_length in E; [|exact Lm]. destruct E as [E2 E].
  apply app_inv_length in E; [|congruence]. destruct E as [E3 E].
  assert (Lp : List.length prev_hash = List.length prev_hash').
  { apply (f_equal (@List.length _)) in E. rewrite !length_app in E. lia. }
  apply app_inv_length in E; [|exact Lp]. destruct E as [E4 E5].
  repeat split; congruence.
Qed.

Lemma header_is_injective_witness :
  exists header,
    generate_header_hash (fun data => data) 100 [x01] 1000 [x02] 5 = Ok header /\
    [x01] = [x01] /\ 1000 = 1000.
Proof.
  eexists. split; [reflexivity|].
  destruct (header_is_injective 100 100 [x01] [x01] 1000 1000 [x02] [x02] 5 5
              _ eq_refl eq_refl eq_refl) as (_ & Em & Ed & _).
  split; [exact Em | exact Ed].
Defined.

(** ** The difficulty predicate, continued *)

(** X7: the predicate is monotone: a hash that meets a difficulty also
    meets every smaller difficulty down to 1, and so does every hash
    whose value is not larger. *)
Theorem meets_difficulty_monotone
    (final_hash final_hash' : bytes) (difficulty difficulty' : Z) :
  1 <= difficulty' <= difficulty ->
  int_from_bytes final_hash' <= int_from_bytes final_hash ->
  meets_difficulty final_hash difficulty = Ok true ->
  meets_difficulty final_hash' difficulty' = Ok true.
Proof.
  intros Hd Hh H.
  rewrite meets_difficulty_positive in H |- * by lia.
  injection H as H. apply Z.leb_le in H. f_equal. apply Z.leb_le.
  apply Z.le_trans with (m := int_from_bytes final_hash); [exact Hh|].
  apply Z.le_trans with (m := (2 ^ 256 - 1) / difficulty); [exact H|].
  apply Z.div_le_compat_l; lia.
Qed.

Lemma meets_difficulty_monotone_witness :
  meets_difficulty (repeat x00 31 ++ [x01]) 2 = Ok true.
Proof.
  apply (meets_difficulty_monotone (repeat x00 31 ++ [x02]) (repeat x00 31 ++ [x01])
           1000 2).
  - lia.
  - vm_compute. discriminate.
  - reflexivity.
Defined.

(** X8: a hash whose value is zero meets every difficulty from 1 up, and
    once the difficulty is 2^256 or more it is the only one that does. *)
Theorem meets_difficulty_extremes (final_hash : bytes) (difficulty : Z) :
  1 <= difficulty ->
  (int_from_bytes final_hash = 0 -> meets_difficulty final_hash difficulty = Ok true) /\
  (2 ^ 256 <= difficulty ->
   meets_difficulty final_hash difficulty = Ok (int_from_bytes final_hash =? 0)).
Proof.
  intro Hd. rewrite meets_difficulty_positive by lia.
  pose proof (int_from_bytes_range final_hash) as R.
  split.
  - intro H0. f_equal. apply Z.leb_le. rewrite H0.
    apply Z.div_pos; lia.
  - intro Hbig. f_equal. rewrite Z.div_small by lia.
    destruct (int_from_bytes final_hash =? 0) eqn:E.
    + apply Z.eqb_eq in E. apply Z.leb_le. lia.
    + apply Z.eqb_neq in E. apply Z.leb_gt. lia.
Qed.

Lemma meets_difficulty_extremes_witness :
  meets_difficulty (repeat x00 32) 12345 = Ok true /\
  meets_difficulty (repeat x00 31 ++ [x01]) (2 ^ 256) = Ok false.
Proof.
  split.
  - apply (proj1 (meets_difficulty_extremes (repeat x00 32) 12345 ltac:(lia))).
    reflexivity.
  - apply (proj2 (meets_difficulty_extremes (repeat x00 31 ++ [x01]) (2 ^ 256)
                    ltac:(lia))).
    lia.
Defined.

(** ** Reading the wallet's reply, continued *)

(** X10: where the return code is looked for.  A ["tx"] object that has
    a ["result"] entry decides, whatever else the reply holds.  When
    ["tx"] is a scalar, or a string or list in which ["result"] occurs,
    the lookup raises, the error is swallowed and the reply is read as
    carrying no code at all: it never stops the miner, even when a
    top-level ["result"] of 1 is present. *)
Theorem parse_contract_error_tx_first (d : list (string * pyval)) (tx : pyval) :
  dict_get d "tx" = Some tx ->
  (forall inner return_code,
      tx = PyDict inner -> dict_get inner "result" = Some return_code ->
      find_return_code (PyDict d) = Ok (Some return_code)) /\
  (unreadable_tx tx = true ->
   parse_contract_error (PyDict d) = None /\
   supply_exhausted (parse_contract_error (PyDict d)) = false).
Proof.
  intro Htx. split.
  - intros inner rc -> Hrc. unfold find_return_code.
    cbn [py_in py_subscript bind]. rewrite Htx. cbn [py_in py_subscript bind].
    rewrite Hrc. reflexivity.
  - intro Hu.
    assert (P : parse_contract_error (PyDict d) = None).
    { unfold parse_contract_error, find_return_code.
      cbn [isinstance_dict py_in py_subscript bind]. rewrite Htx.
      cbn [py_in py_subscript bind].
      destruct tx as [ | | | | | s | l | inner]; cbn [unreadable_tx] in Hu;
        cbn [py_in py_subscript bind]; try reflexivity; try discriminate Hu.
      - rewrite Hu. reflexivity.
      - rewrite Hu. reflexivity. }
    rewrite P. split; reflexivity.
Qed.

Lemma parse_contract_error_tx_first_witness :
  parse_contract_error (PyDict [("tx", PyInt 5); ("result", PyInt 1)]%string) = None.
Proof.
  apply (parse_contract_error_tx_first
           [("tx", PyInt 5); ("result", PyInt 1)]%string (PyInt 5) eq_refl).
  reflexivity.
Defined.

(** ** The listener *)

Section Listener.

Variable blake3_digest : bytes -> bytes.
Variable sha3_256_digest : bytes -> bytes.
Variable CONTRACT_HASH : string.

Local Abbreviation miner := (miner_step blake3_digest sha3_256_digest).
Local Abbreviation listener := (listener_step CONTRACT_HASH).
Local Abbreviation step1 := (step blake3_digest sha3_256_digest CONTRACT_HASH).
Local Abbreviation run1 := (run blake3_digest sha3_256_digest CONTRACT_HASH).

Lemma target_event_restarts (data : pyval) :
  is_target_event CONTRACT_HASH data ->
  handle_message CONTRACT_HASH data = Ok Restart.
Proof.
  intros (d & result & event & event_info & id & -> & Hr & He & Hc & Hh & Hi & Hid).
  unfold handle_message.
  cbn [py_in py_subscript py_get bind]. rewrite Hr.
  cbn [py_in py_subscript py_get bind isinstance_bool isinstance_dict]. rewrite He.
  cbn [py_in py_subscript py_get bind isinstance_bool isinstance_dict]. rewrite Hc.
  cbn [py_in py_subscript py_get bind isinstance_bool isinstance_dict]. rewrite Hh.
  cbn [py_eq_str]. rewrite String.eqb_refl, Hi, Hid. reflexivity.
Qed.

(** X11: the listener decides to restart mining exactly for an event
    envelope of the configured contract and event id; every other message
    is ignored or raises. *)
Theorem handle_message_restart_iff (data : pyval) :
  handle_message CONTRACT_HASH data = Ok Restart <->
  is_target_event CONTRACT_HASH data.
Proof.
  split; [apply handle_message_restart | apply target_event_restarts].
Qed.

(** X12: which messages make the listener drop the connection.  A JSON
    null, boolean or number raises [TypeError]; a string or an array
    raises [TypeError] when ["result"] occurs in it and is ignored
    otherwise; an object raises exactly when it is an event envelope
    whose ["contract_event"] entry is not an object, and then with
    [AttributeError].  In the receive loop a raising message sends the
    listener to its back-off, with the shared state untouched. *)
Theorem handle_message_raises (data : pyval) :
  (is_scalar data = true -> handle_message CONTRACT_HASH data = Raise TypeError) /\
  (forall s, data = PyStr s ->
     handle_message CONTRACT_HASH data
     = if str_in "result" s then Raise TypeError else Ok Ignore) /\
  (forall l, data = PyList l ->
     handle_message CONTRACT_HASH data
     = if existsb (fun v => py_eq_str v "result") l then Raise TypeError else Ok Ignore) /\
  (isinstance_dict data = true ->
   ((exists e, handle_message CONTRACT_HASH data = Raise e) <-> malformed_event data) /\
   (forall e, handle_message CONTRACT_HASH data = Raise e -> e = AttributeError)) /\
  (forall e w,
      handle_message CONTRACT_HASH data = Raise e -> listener_pc w = LRecv ->
      listener (Message data) w = Some (listener_goto LBackoff w)).
Proof.
  split; [|split; [|split; [|split]]].
  - destruct data; try discriminate; reflexivity.
  - intros s ->. unfold handle_message. cbn [py_in bind].
    destruct (str_in "result" s); reflexivity.
  - intros l ->. unfold handle_message. cbn [py_in bind].
    destruct (existsb _ l); reflexivity.
  - destruct data as [ | | | | | | | d]; try discriminate. intros _.
    assert (Hraise : forall e, handle_message CONTRACT_HASH (PyDict d) = Raise e ->
                               e = AttributeError /\ malformed_event (PyDict d)).
    { intros e H. unfold handle_message in H.
      cbn [py_in py_subscript bind] in H.
      destruct (dict_get d "result") as [r|] eqn:Er; [|discriminate H].
      cbn [bind isinstance_bool isinstance_dict] in H.
      destruct r as [ | | | | | | | result]; try discriminate H.
      cbn [py_in py_subscript bind isinstance_bool isinstance_dict] in H.
      destruct (dict_get result "event") as [ev|] eqn:Eev; [|discriminate H].
      cbn [bind isinstance_dict] in H.
      destruct ev as [ | | | | | | | event]; try discriminate H.
      cbn [py_in py_subscript bind isinstance_dict] in H.
      destruct (dict_get event "contract_event") as [info|] eqn:Einfo;
        [|discriminate H].
      cbn [bind] in H.
      destruct (isinstance_dict info) eqn:Ei.
      - destruct info as [ | | | | | | | event_info]; try discriminate Ei.
        cbn [py_get bind] in H.
        destruct (py_eq_str _ _); [|discriminate H].
        destruct (py_eq_int _ _); discriminate H.
      - assert (e = AttributeError)
          by (destruct info; try discriminate Ei; cbn [py_get bind] in H; congruence).
        split; [assumption|].
        exists d, result, event, info. repeat split; assumption. }
    split; [split|].
    + intros [e H]. exact (proj2 (Hraise e H)).
    + intros (d0 & result & event & info & E & Hr & He & Hc & Hi).
      injection E as <-. exists AttributeError.
      unfold handle_message. cbn [py_in py_subscript bind]. rewrite Hr.
      cbn [py_in py_subscript bind isinstance_bool isinstance_dict]. rewrite He.
      cbn [py_in py_subscript bind isinstance_bool isinstance_dict]. rewrite Hc.
      cbn [bind]. destruct info; try discriminate Hi; reflexivity.
    + intros e H. exact (proj1 (Hraise e H)).
  - intros e w H Hpc. unfold listener_step. rewrite Hpc, H. reflexivity.
Qed.

Lemma miner_step_listener_pc (i : MinerInput) (w w' : World) :
  miner i w = Some w' -> listener_pc w' = listener_pc w.
Proof.
  unfold miner_step. intro H.
  destruct (miner_pc w); split_step H; try discriminate H;
    injection H as <-; reflexivity.
Qed.

Lemma step_exits (e : Event) (w w' : World) :
  step1 e w = Some w' -> process_exited w' = true ->
  e = ListenerStep KeyboardInterrupt.
Proof.
  unfold step. destruct (process_exited w) eqn:Ex; [discriminate|].
  destruct e as [i|i]; intros H Hx.
  - apply miner_step_listener_pc in H. unfold process_exited in Ex, Hx.
    rewrite H in Hx. congruence.
  - unfold listener_step in H. unfold process_exited in Hx.
    split_step H; injection H as <-; cbn in Hx; try discriminate Hx;
      try reflexivity; unfold process_exited in Ex; congruence.
Qed.

(** X13: the process ends only on a keyboard interrupt.  In every run
    that takes a live process to an exited one, the last event is the
    interrupt of the main thread: no transport failure, no message and no
    step of the miner ends it. *)
Theorem process_exits_only_on_interrupt (es : list Event) (w w' : World) :
  run1 es w = Some w' ->
  process_exited w = false ->
  process_exited w' = true ->
  exists before, es = before ++ [ListenerStep KeyboardInterrupt].
Proof.
  revert w. induction es as [|e t IH]; intros w H Hlive Hx; cbn [run] in H.
  - injection H as <-. congruence.
  - destruct (step1 e w) as [w1|] eqn:E; [|discriminate].
    destruct (process_exited w1) eqn:Ex1.
    + pose proof (step_exits e w w1 E Ex1) as ->.
      destruct t as [|e' t']; [now exists []|].
      cbn [run] in H. unfold step in H. rewrite Ex1 in H. discriminate.
    + destruct (IH w1 H Ex1 Hx) as [before ->]. now exists (e :: before).
Qed.

(** X14: once the miner thread has ended, by [sys.exit(0)] or by an
    uncaught exception, it takes no further step: whatever happens
    afterwards, no further submission is made and the mining parameters
    and the miner's variables stay as they were. *)
Theorem ended_miner_stays_ended (es : list Event) (w w' : World) :
  run1 es w = Some w' ->
  miner_ended (miner_pc w) = true ->
  miner_pc w' = miner_pc w /\ search_data w' = search_data w.
Proof.
  revert w. induction es as [|e t IH]; intros w H Hend; cbn [run] in H.
  - injection H as <-. split; reflexivity.
  - destruct (step1 e w) as [w1|] eqn:E; [|discriminate].
    unfold step in E. destruct (process_exited w); [discriminate|].
    destruct e as [i|i].
    + unfold miner_step in E. destruct (miner_pc w); discriminate.
    + destruct (listener_step_frame CONTRACT_HASH i w w1 E) as (Epc & Ed & _).
      rewrite <- Epc in Hend. destruct (IH w1 H Hend) as (Epc' & Ed').
      split; congruence.
Qed.

End Listener.

Lemma handle_message_raises_witness :
  handle_message "" PyNone = Raise TypeError /\
  (exists e, handle_message "" malformed_envelope = Raise e).
Proof.
  split.
  - apply (proj1 (handle_message_raises "" PyNone)). reflexivity.
  - destruct (handle_message_raises "" malformed_envelope) as (_ & _ & _ & D & _).
    apply (proj1 (D eq_refl)).
    eexists _, _, _, _. repeat split; reflexivity.
Defined.

Lemma process_exits_only_on_interrupt_witness :
  exists before,
    [ListenerStep Connected; ListenerStep KeyboardInterrupt]
    = before ++ [ListenerStep KeyboardInterrupt].
Proof.
  destruct (run zero_digest zero_digest ""
              [ListenerStep Connected; ListenerStep KeyboardInterrupt] scenario_world)
    as [w|] eqn:E; [|vm_compute in E; discriminate E].
  apply (process_exits_only_on_interrupt zero_digest zero_digest "" _ scenario_world w E).
  - reflexivity.
  - vm_compute in E. injection E as <-. reflexivity.
Defined.

Lemma ended_miner_stays_ended_witness :
  exists w w',
    miner_pc w = Exited /\
    run zero_digest zero_digest ""
        [ListenerStep Connected; ListenerStep (Message (target_event ""));
         ListenerStep Tick] w = Some w' /\
    miner_pc w' = Exited /\ submissions w' = submissions w.
Proof.
  pose (w := goto Exited scenario_world).
  destruct (run zero_digest zero_digest ""
              [ListenerStep Connected; ListenerStep (Message (target_event ""));
               ListenerStep Tick] w) as [w'|] eqn:E;
    [|vm_compute in E; discriminate E].
  exists w, w'. split; [reflexivity|]. split; [exact E|].
  destruct (ended_miner_stays_ended zero_digest zero_digest "" _ w w' E eq_refl)
    as (Epc & Ed).
  split; [exact Epc|].
  unfold search_data in Ed. congruence.
Defined.

(** ** The miner, continued *)

Section MinerLoop.

Variable blake3_digest : bytes -> bytes.
Variable sha3_256_digest : bytes -> bytes.
Variable CONTRACT_HASH : string.

Local Abbreviation miner := (miner_step blake3_digest sha3_256_digest).
Local Abbreviation listener := (listener_step CONTRACT_HASH).
Local Abbreviation step1 := (step blake3_digest sha3_256_digest CONTRACT_HASH).
Local Abbreviation run1 := (run blake3_digest sha3_256_digest CONTRACT_HASH).
Local Abbreviation ready := (template_ready blake3_digest sha3_256_digest).

Lemma listener_step_restart_event (i : ListenerInput) (w w' : World) :
  listener i w = Some w' ->
  restart_event (state w) = true -> restart_event (state w') = true.
Proof.
  unfold listener_step. intro H.
  split_step H; injection H as <-; cbn; auto.
Qed.

Lemma miner_step_ready (address : bytes) (i : MinerInput) (w w' : World) :
  ready address w -> miner i w = Some w' -> ready address w'.
Proof.
  unfold template_ready. intros (Ha & Hpc) H.
  unfold miner_step in H.
  destruct (miner_pc w) eqn:Epc; split_step H; try discriminate H;
    injection H as <-; cbn; (split; [exact Ha|]); auto.
  - rewrite Ha in *. assumption.
  - split; [exact Hpc|]. eexists. split; eassumption.
Qed.

Lemma listener_step_ready (address : bytes) (i : ListenerInput) (w w' : World) :
  ready address w -> listener i w = Some w' -> ready address w'.
Proof.
  intros (Ha & Hpc) H.
  destruct (listener_step_frame CONTRACT_HASH i w w' H) as (Epc & Ed & _).
  pose proof (listener_step_restart_event i w w' H) as Hr.
  unfold search_data in Ed. injection Ed as _ _ _ _ Eloc _.
  unfold template_ready. rewrite Epc, Eloc. split; [exact Ha|].
  destruct (miner_pc w); auto.
Qed.

Lemma run_ready (address : bytes) (es : list Event) (w w' : World) :
  ready address w -> run1 es w = Some w' -> ready address w'.
Proof.
  revert w. induction es as [|e es IH]; intros w Hr H; cbn [run] in H.
  - now injection H as <-.
  - destruct (step1 e w) as [w1|] eqn:E; [|discriminate].
    eapply IH; [|exact H]. unfold step in E.
    destruct (process_exited w); [discriminate|].
    destruct e as [i|i];
      [eapply miner_step_ready | eapply listener_step_ready]; eauto.
Qed.

Lemma initial_world_ready (address : bytes) (t0 t1 : Q) :
  ready address (initial_world address t0 t1).
Proof. split; reflexivity. Qed.


(** X16: the miner only ever submits a checked solution.  Whenever it is
    about to call [submit_solution], the header digest is the one of its
    snapshot and its own address, the double hash of that digest with the
    nonce was computed and met the snapshot difficulty, the nonce, the
    block number and the timestamp fit 64 bits, and the difficulty lies
    in [1, 2^256). *)
Theorem submitted_solution_was_checked
    (es : list Event) (address : bytes) (t0 t1 : Q) (w : World) :
  run1 es (initial_world address t0 t1) = Some w ->
  miner_pc w = AtSubmit ->
  let l := locals w in
  generate_header_hash blake3_digest (l_block_number l) address (l_difficulty l)
    (l_prev_hash l) (current_ts l) = Ok (header_hash l) /\
  (exists final_hash,
      compute_final_hash sha3_256_digest (header_hash l) (nonce l) = Ok final_hash /\
      meets_difficulty final_hash (l_difficulty l) = Ok true) /\
  0 <= nonce l < 2 ^ 64 /\
  0 <= l_block_number l < 2 ^ 64 /\
  0 <= current_ts l < 2 ^ 64 /\
  1 <= l_difficulty l < 2 ^ 256.
Proof.
  intros Hrun Epc l.
  pose proof (run_ready address es _ w (initial_world_ready address t0 t1) Hrun)
    as (_ & Hpc).
  rewrite Epc in Hpc. destruct Hpc as (Hh & final_hash & Hc & Hm).
  fold l in Hh, Hc, Hm.
  destruct (generate_header_hash_ok_range _ _ _ _ _ _ _ Hh) as (Hb & Hd & Ht).
  split; [exact Hh|]. split; [now exists final_hash|].
  split.
  { unfold compute_final_hash, struct_pack_Q in Hc.
    destruct ((0 <=? nonce l) && (nonce l <? 2 ^ 64)) eqn:B; [|discriminate Hc].
    apply andb_true_iff in B. destruct B as [B0 B1].
    apply Z.leb_le in B0. apply Z.ltb_lt in B1. lia. }
  split; [exact Hb|]. split; [exact Ht|].
  assert (l_difficulty l <> 0).
  { intro Z0. unfold meets_difficulty, py_floordiv in Hm. rewrite Z0 in Hm.
    discriminate Hm. }
  lia.
Qed.

(** X17: a failed refresh is retried and changes nothing.  When
    [sync_chain_state] raises, the miner leaves the lock, keeps the
    mining parameters, its own variables and the flag as they were, and
    is back at the wait with [restart_event] still set, so that its next
    step enters the loop again. *)
Theorem failed_sync_is_retried
    (es : list Event) (address : bytes) (t0 t1 : Q) (w : World)
    (i : MinerInput) (e : PyExc) :
  run1 es (initial_world address t0 t1) = Some w ->
  miner_pc w = AtSync ->
  in_sync i = Raise e ->
  exists w1,
    miner i w = Some w1 /\
    miner_pc w1 = AtWait /\
    search_data w1 = search_data w /\
    awaiting_confirmation (state w1) = awaiting_confirmation (state w) /\
    lock (state w1) = false /\
    restart_event (state w1) = true /\
    forall i', exists w2, miner i' w1 = Some w2 /\ miner_pc w2 = AtAcquire.
Proof.
  intros Hrun Epc Hs.
  pose proof (run_ready address es _ w (initial_world_ready address t0 t1) Hrun)
    as (_ & Hpc).
  rewrite Epc in Hpc.
  unfold miner_step at 1. rewrite Epc, Hs.
  eexists. split; [reflexivity|].
  split; [reflexivity|]. split; [reflexivity|]. split; [reflexivity|].
  split; [reflexivity|]. split; [exact Hpc|].
  intro i'. unfold miner_step. cbn. rewrite Hpc.
  eexists. split; reflexivity.
Qed.

(** X18: a chain value that does not fit is stored and stalls the miner.
    When the refresh returns a block number outside [0, 2^64) or a
    difficulty outside [0, 2^256), the miner stores it, clears
    [restart_event], fails to build the header, and is back at the wait,
    where it cannot move until somebody sets the event again; nothing is
    hashed or submitted. *)
Theorem unfit_chain_value_stalls
    (w : World) (i1 i2 i3 : MinerInput) (b d : Z) (p : bytes) :
  miner_pc w = AtSync ->
  in_sync i1 = Ok (b, d, p) ->
  ~ (0 <= b < 2 ^ 64 /\ 0 <= d < 2 ^ 256) ->
  exists w3,
    miner_run blake3_digest sha3_256_digest [i1; i2; i3] w = Some w3 /\
    miner_pc w3 = AtWait /\
    block_number (state w3) = b /\ difficulty (state w3) = d /\
    restart_event (state w3) = false /\
    lock (state w3) = false /\
    local_hashes (locals w3) = local_hashes (locals w) /\
    submissions w3 = submissions w /\
    forall i4, miner i4 w3 = None.
Proof.
  intros Epc Hs Hbad.
  cbn [miner_run]. unfold miner_step at 1. rewrite Epc, Hs.
  unfold miner_step at 1. cbn [miner_pc goto with_state].
  unfold miner_step at 1.
  cbn [miner_pc goto with_state with_locals locals state snapshot set_lock
       set_restart_event set_ts set_chain block_number difficulty prev_hash ts
       l_block_number l_difficulty l_prev_hash current_ts address_bytes].
  destruct (generate_header_hash _ _ _ _ _ _) as [h|e] eqn:E.
  - apply generate_header_hash_ok_range in E. lia.
  - eexists. split; [reflexivity|].
    repeat (split; [reflexivity|]).
    intro i4. reflexivity.
Qed.

(** X19: a difficulty of zero ends the miner thread.  When the refresh
    returns difficulty 0 with a block number and a clock reading that fit,
    and nobody sets [restart_event] meanwhile, the miner builds the
    header, starts the loop, and its first attempt raises
    [ZeroDivisionError] outside any handler: the thread is over, with
    nothing submitted. *)
Theorem zero_difficulty_ends_miner
    (w : World) (i1 i2 i3 i4 i5 : MinerInput) (b : Z) (p : bytes) :
  miner_pc w = AtSync ->
  in_sync i1 = Ok (b, 0, p) ->
  0 <= b < 2 ^ 64 ->
  0 <= millis (in_time i2) < 2 ^ 64 ->
  exists w5,
    miner_run blake3_digest sha3_256_digest [i1; i2; i3; i4; i5] w = Some w5 /\
    miner_pc w5 = Crashed ZeroDivisionError /\
    submissions w5 = submissions w /\
    forall i6, miner i6 w5 = None.
Proof.
  intros Epc Hs Hb Ht.
  cbn [miner_run]. unfold miner_step at 1. rewrite Epc, Hs.
  unfold miner_step at 1. cbn [miner_pc goto with_state].
  unfold miner_step at 1.
  cbn [miner_pc goto with_state with_locals locals state snapshot set_lock
       set_restart_event set_ts set_chain block_number difficulty prev_hash ts
       l_block_number l_difficulty l_prev_hash current_ts address_bytes].
  destruct (generate_header_hash _ _ _ _ _ _) as [h|e] eqn:E.
  2: { exfalso.
       unfold generate_header_hash in E.
       destruct (struct_pack_Q_ok b Hb) as (x & Ex & _).
       destruct (struct_pack_Q_ok _ Ht) as (y & Ey & _).
       rewrite Ex, Ey in E. discriminate E. }
  unfold miner_step at 1.
  cbn [miner_pc goto with_state with_locals locals state set_lock
       set_restart_event restart_event].
  unfold miner_step at 1.
  cbn [miner_pc goto with_state with_locals locals state begin_search
       header_hash nonce l_difficulty local_hashes set_local_hashes].
  pose proof (randint_range 0 (2 ^ 32) (in_random i3) ltac:(lia)) as R.
  destruct (struct_pack_Q_ok (randint 0 (2 ^ 32) (in_random i3)) ltac:(lia))
    as (x & Ex & _).
  unfold compute_final_hash. rewrite Ex. cbn [bind].
  eexists. split; [reflexivity|].
  split; [reflexivity|]. split; [reflexivity|].
  intro i6. reflexivity.
Qed.

(** X20: a wake-up can be lost.  If the contract event is handled after
    the miner has set the flag but before the miner clears
    [restart_event] (line 309), the miner wipes out the listener's signal:
    it ends up blocked with the flag already cleared and the event not
    set, and stays so until a further event arrives. *)
Theorem wake_up_can_be_lost (w : World) (i1 i2 : MinerInput) (data : pyval) :
  miner_pc w = AtSetAwaiting ->
  listener_pc w = LRecv ->
  lock (state w) = false ->
  is_target_event CONTRACT_HASH data ->
  exists w',
    run1 [MinerStep i1; ListenerStep (Message data); ListenerStep Tick; MinerStep i2] w
    = Some w' /\
    miner_pc w' = AtBlocked /\
    awaiting_confirmation (state w') = false /\
    restart_event (state w') = false /\
    forall i, miner i w' = None.
Proof.
  intros Epc Elp El Ht. apply target_event_restarts in Ht.
  cbn [run]. unfold step at 1. unfold process_exited. rewrite Elp.
  unfold miner_step at 1. rewrite Epc, El.
  unfold step at 1. unfold process_exited. cbn [listener_pc goto with_state].
  rewrite Elp. unfold listener_step at 1.
  cbn [listener_pc goto with_state state set_awaiting_confirmation lock].
  rewrite Elp, Ht, El.
  unfold step at 1. unfold process_exited. cbn [listener_pc listener_goto].
  unfold listener_step at 1. cbn [listener_pc listener_goto].
  unfold step at 1. unfold process_exited. cbn [listener_pc listener_goto].
  unfold miner_step at 1. cbn [miner_pc listener_goto with_state goto].
  eexists. split; [reflexivity|].
  split; [reflexivity|]. split; [reflexivity|]. split; [reflexivity|].
  intro i. reflexivity.
Qed.

Lemma miner_step_restart_event (i : MinerInput) (w w' : World) :
  miner i w = Some w' ->
  restart_event (state w') = restart_event (state w) \/
  (restart_event (state w') = false /\
   (miner_pc w = AtStamp \/ miner_pc w = AtClear)) \/
  (restart_event (state w') = true /\ miner_pc w = AtReport /\
   local_hashes (locals w) mod 100000 = 0 /\
   Qgtb (in_time i - last_report (locals w))%Q HASHRATE_REPORT_INTERVAL = true).
Proof.
  unfold miner_step. intro H.
  destruct (miner_pc w) eqn:Epc; split_step H; try discriminate H;
    injection H as <-; cbn; auto.
  right. right. repeat split; auto. now apply Z.eqb_eq.
Qed.

Lemma listener_step_restart_writer (i : ListenerInput) (w w' : World) :
  listener i w = Some w' ->
  restart_event (state w') = restart_event (state w) \/
  (restart_event (state w') = true /\ listener_pc w = LSetEvent /\ i = Tick).
Proof.
  unfold listener_step. intro H.
  destruct (listener_pc w) eqn:Epc; split_step H; try discriminate H;
    injection H as <-; cbn; auto.
Qed.

(** X21: who touches [restart_event].  It is cleared only by the miner,
    at the end of a refresh (line 246) or right after it flagged a
    submission (line 309).  It is set only by the listener's step after a
    target event (line 370), or by the miner's report step when the
    attempt counter is a multiple of 100000 and more than ten seconds
    have passed since the last report. *)
Theorem restart_event_writers (e : Event) (w w' : World) :
  step1 e w = Some w' ->
  (restart_event (state w) = true -> restart_event (state w') = false ->
   exists i, e = MinerStep i /\ (miner_pc w = AtStamp \/ miner_pc w = AtClear)) /\
  (restart_event (state w) = false -> restart_event (state w') = true ->
   (e = ListenerStep Tick /\ listener_pc w = LSetEvent) \/
   (exists i, e = MinerStep i /\ miner_pc w = AtReport /\
              local_hashes (locals w) mod 100000 = 0 /\
              Qgtb (in_time i - last_report (locals w))%Q HASHRATE_REPORT_INTERVAL
              = true)).
Proof.
  intro H. unfold step in H. destruct (process_exited w); [discriminate|].
  destruct e as [i|i].
  - destruct (miner_step_restart_event i w w' H) as [E|[(E & Hpc)|(E & Hpc & Hc)]].
    + split; intros; congruence.
    + split; [intros _ _; now exists i | intros; congruence].
    + split; [intros; congruence|]. intros _ _. right. now exists i.
  - destruct (listener_step_restart_writer i w w' H) as [E|(E & Hpc & ->)].
    + split; intros; congruence.
    + split; [intros; congruence|]. intros _ _. now left.
Qed.

End MinerLoop.

Lemma target_event_is_target (contract_hash : string) :
  is_target_event contract_hash (target_event contract_hash).
Proof.
  unfold is_target_event, target_event.
  eexists _, _, _, _, _. repeat split; reflexivity.
Qed.


Lemma submitted_solution_was_checked_witness :
  exists w,
    run zero_digest zero_digest ""
        (repeat (MinerStep (scenario_input (Raise RuntimeError))) 8)
        scenario_world = Some w /\
    0 <= nonce (locals w) < 2 ^ 64 /\
    1 <= l_difficulty (locals w) < 2 ^ 256.
Proof.
  destruct (run zero_digest zero_digest ""
              (repeat (MinerStep (scenario_input (Raise RuntimeError))) 8)
              scenario_world) as [w|] eqn:E; [|vm_compute in E; discriminate E].
  assert (P : miner_pc w = AtSubmit)
    by (vm_compute in E; injection E as <-; reflexivity).
  destruct (submitted_solution_was_checked zero_digest zero_digest "" _
              (repeat x01 34) (inject_Z 0) (inject_Z 0) w E P)
    as (_ & _ & N & _ & _ & D).
  exists w. split; [reflexivity|]. split; [exact N | exact D].
Defined.

Lemma failed_sync_is_retried_witness :
  exists w w1,
    run zero_digest zero_digest ""
        (repeat (MinerStep (scenario_input (Raise RuntimeError))) 3)
        scenario_world = Some w /\
    miner_step zero_digest zero_digest failing_sync_input w = Some w1 /\
    miner_pc w1 = AtWait /\ restart_event (state w1) = true.
Proof.
  destruct (run zero_digest zero_digest ""
              (repeat (MinerStep (scenario_input (Raise RuntimeError))) 3)
              scenario_world) as [w|] eqn:E; [|vm_compute in E; discriminate E].
  assert (P : miner_pc w = AtSync)
    by (vm_compute in E; injection E as <-; reflexivity).
  destruct (failed_sync_is_retried zero_digest zero_digest "" _
              (repeat x01 34) (inject_Z 0) (inject_Z 0) w failing_sync_input
              RuntimeError E P eq_refl)
    as (w1 & S & Pc & _ & _ & _ & R & _).
  exists w, w1. split; [reflexivity|]. repeat split; assumption.
Defined.

Lemma unfit_chain_value_stalls_witness :
  exists w3,
    miner_run zero_digest zero_digest
      [unfit_sync_input; unfit_sync_input; unfit_sync_input]
      (goto AtSync scenario_world) = Some w3 /\
    miner_pc w3 = AtWait /\ difficulty (state w3) = -1 /\
    restart_event (state w3) = false.
Proof.
  destruct (unfit_chain_value_stalls zero_digest zero_digest
              (goto AtSync scenario_world)
              unfit_sync_input unfit_sync_input unfit_sync_input
              100 (-1) (repeat x00 32) eq_refl eq_refl ltac:(lia))
    as (w3 & R & Pc & _ & D & Ev & _).
  exists w3. repeat split; assumption.
Defined.

Lemma zero_difficulty_ends_miner_witness :
  exists w5,
    miner_run zero_digest zero_digest
      (repeat zero_difficulty_input 5) (goto AtSync scenario_world) = Some w5 /\
    miner_pc w5 = Crashed ZeroDivisionError.
Proof.
  destruct (zero_difficulty_ends_miner zero_digest zero_digest
              (goto AtSync scenario_world)
              zero_difficulty_input zero_difficulty_input zero_difficulty_input
              zero_difficulty_input zero_difficulty_input
              100 (repeat x00 32) eq_refl eq_refl ltac:(lia)
              ltac:(vm_compute; split; [discriminate | reflexivity]))
    as (w5 & R & Pc & _).
  exists w5. split; assumption.
Defined.

Lemma wake_up_can_be_lost_witness :
  exists w w',
    run zero_digest zero_digest ""
        (ListenerStep Connected
         :: repeat (MinerStep (scenario_input (Raise RuntimeError))) 9)
        scenario_world = Some w /\
    run zero_digest zero_digest ""
        [MinerStep (scenario_input (Raise RuntimeError));
         ListenerStep (Message (target_event "")); ListenerStep Tick;
         MinerStep (scenario_input (Raise RuntimeError))] w = Some w' /\
    miner_pc w' = AtBlocked /\
    awaiting_confirmation (state w') = false /\
    restart_event (state w') = false.
Proof.
  destruct (run zero_digest zero_digest ""
              (ListenerStep Connected
               :: repeat (MinerStep (scenario_input (Raise RuntimeError))) 9)
              scenario_world) as [w|] eqn:E; [|vm_compute in E; discriminate E].
  assert (P : miner_pc w = AtSetAwaiting /\ listener_pc w = LRecv /\
              lock (state w) = false)
    by (vm_compute in E; injection E as <-; repeat split; reflexivity).
  destruct P as (P1 & P2 & P3).
  destruct (wake_up_can_be_lost zero_digest zero_digest "" w
              (scenario_input (Raise RuntimeError))
              (scenario_input (Raise RuntimeError))
              (target_event "") P1 P2 P3 (target_event_is_target ""))
    as (w' & R & Pc & A & Ev & _).
  exists w, w'. split; [reflexivity|]. repeat split; assumption.
Defined.

Lemma restart_event_writers_witness :
  exists w w',
    run zero_digest zero_digest ""
        (repeat (MinerStep (scenario_input (Raise RuntimeError))) 4)
        scenario_world = Some w /\
    step zero_digest zero_digest ""
         (MinerStep (scenario_input (Raise RuntimeError))) w = Some w' /\
    miner_pc w = AtStamp.
Proof.
  destruct (run zero_digest zero_digest ""
              (repeat (MinerStep (scenario_input (Raise RuntimeError))) 4)
              scenario_world) as [w|] eqn:E; [|vm_compute in E; discriminate E].
  destruct (step zero_digest zero_digest ""
              (MinerStep (scenario_input (Raise RuntimeError))) w) as [w'|] eqn:E';
    [|vm_compute in E; injection E as <-; vm_compute in E'; discriminate E'].
  assert (A : restart_event (state w) = true /\ miner_pc w <> AtClear)
    by (vm_compute in E; injection E as <-; split; [reflexivity | discriminate]).
  assert (A' : restart_event (state w') = false)
    by (vm_compute in E; injection E as <-; vm_compute in E';
        injection E' as <-; reflexivity).
  exists w, w'. split; [reflexivity|]. split; [exact E'|].
  destruct (restart_event_writers zero_digest zero_digest "" _ w w' E') as (Clr & _).
  destruct (Clr (proj1 A) A') as (i & _ & [Pc|Pc]); [exact Pc|].
  destruct (proj2 A Pc).
Defined.

(** ** The RPC helpers *)

Section RpcProperties.

Variable post : string -> pyval -> outcome pyval.
Variable py_int : pyval -> outcome Z.
Variable bytes_fromhex : pyval -> outcome bytes.

Lemma rpc_call_ok (url method : string) (params v : pyval) :
  rpc_call post url method params = Ok v <->
  exists reply,
    post url (rpc_payload method params) = Ok (PyDict reply) /\
    dict_get reply "error" = None /\
    dict_get reply "result" = Some v.
Proof.
  unfold rpc_call. fold (rpc_payload method params).
  destruct (post url (rpc_payload method params)) as [j|e]; cbn [bind].
  - destruct j as [ | | | | | s | l | reply]; cbn [py_in py_subscript bind];
      try (split; [discriminate | intros (r & H & _); discriminate H]).
    + destruct (str_in "error" s); cbn [bind];
        (split; [discriminate | intros (r & H & _); discriminate H]).
    + destruct (existsb _ l); cbn [bind];
        (split; [discriminate | intros (r & H & _); discriminate H]).
    + destruct (dict_get reply "error") as [err|] eqn:Ee; cbn [bind].
      * split; [discriminate|]. intros (r & H & En & _).
        injection H as <-. congruence.
      * destruct (dict_get reply "result") as [res|] eqn:Er.
        -- split.
           ++ intro H. injection H as <-. exists reply. repeat split; assumption.
           ++ intros (r & H & _ & Hr). injection H as <-. congruence.
        -- split; [discriminate|]. intros (r & H & _ & Hr).
           injection H as <-. congruence.
  - split; [discriminate | intros (r & H & _); discriminate H].
Qed.

(** X22: [rpc_call] returns a value exactly when the posted request was
    answered by a JSON object that has no ["error"] entry and has a
    ["result"] entry, and the value is that entry.  An object with an
    ["error"] entry raises [RuntimeError] even when it also carries a
    result. *)
Theorem rpc_call_returns (url method : string) (params : pyval) :
  (forall v,
      rpc_call post url method params = Ok v <->
      exists reply,
        post url (rpc_payload method params) = Ok (PyDict reply) /\
        dict_get reply "error" = None /\
        dict_get reply "result" = Some v) /\
  (forall reply,
      post url (rpc_payload method params) = Ok (PyDict reply) ->
      dict_get reply "error" <> None ->
      rpc_call post url method params = Raise RuntimeError).
Proof.
  split; [intro v; apply rpc_call_ok|].
  intros reply H He. unfold rpc_call. fold (rpc_payload method params).
  rewrite H. cbn [bind py_in py_subscript].
  destruct (dict_get reply "error"); [reflexivity | contradiction].
Qed.

Lemma at_path_3 (v inner : pyval) :
  data_value_value v = Ok inner <-> at_path ["data"; "value"; "value"]%string v = Ok inner.
Proof.
  unfold data_value_value. cbn [at_path].
  destruct (py_subscript v "data") as [a|]; cbn [bind]; [|reflexivity].
  destruct (py_subscript a "value") as [b|]; cbn [bind]; [|reflexivity].
  destruct (py_subscript b "value") as [c|]; cbn [bind]; reflexivity.
Qed.

Lemma bind_ok {A B : Type} (m : outcome A) (k : A -> outcome B) (b : B) :
  bind m k = Ok b <-> exists a, m = Ok a /\ k a = Ok b.
Proof.
  destruct m as [a|e]; cbn [bind].
  - split; [intro H; now exists a | intros (a' & E & H); now injection E as <-].
  - split; [discriminate | intros (a' & E & _); discriminate E].
Qed.

(** X23: [sync_chain_state] is all or nothing.  It returns a block
    number, a difficulty and a previous hash exactly when the node
    answered each of the three queries (["block"], ["diff"],
    ["prev_hash"]) with an error-free object holding a value under
    [result.data.value.value] (one [value] deeper for the previous hash),
    and [int] and [bytes.fromhex] accept those values; what it returns
    are their conversions.  In every other case it raises. *)
Theorem sync_chain_state_returns (contract : string) (b d : Z) (p : bytes) :
  sync_chain_state post py_int bytes_fromhex contract = Ok (b, d, p) <->
  exists vb vd vp,
    node_reports post contract "block" ["data"; "value"; "value"]%string vb /\
    py_int vb = Ok b /\
    node_reports post contract "diff" ["data"; "value"; "value"]%string vd /\
    py_int vd = Ok d /\
    node_reports post contract "prev_hash"
      ["data"; "value"; "value"; "value"]%string vp /\
    bytes_fromhex vp = Ok p.
Proof.
  assert (Q : forall key path_tail v,
             (exists reply inner,
                 get_contract_data post contract key = Ok reply /\
                 data_value_value reply = Ok inner /\
                 at_path path_tail inner = Ok v) <->
             node_reports post contract key
               (["data"; "value"; "value"]%string ++ path_tail) v).
  { intros key tail v. unfold node_reports, get_contract_data. split.
    - intros (reply & inner & G & Dv & T).
      apply rpc_call_ok in G. destruct G as (r & G & Ee & Er).
      exists r, reply. repeat split; try assumption.
      unfold data_value_value in Dv. cbn [app at_path].
      destruct (py_subscript reply "data") as [x|]; [|discriminate Dv]. cbn [bind] in *.
      destruct (py_subscript x "value") as [y|]; [|discriminate Dv]. cbn [bind] in *.
      rewrite Dv. exact T.
    - intros (r & result & G & Ee & Er & T).
      cbn [app at_path] in T.
      destruct (py_subscript result "data") as [x|] eqn:E1; [|discriminate T].
      cbn [bind] in T.
      destruct (py_subscript x "value") as [y|] eqn:E2; [|discriminate T].
      cbn [bind] in T.
      destruct (py_subscript y "value") as [z|] eqn:E3; [|discriminate T].
      cbn [bind] in T.
      exists result, z. split; [|split].
      + apply rpc_call_ok. exists r. repeat split; assumption.
      + unfold data_value_value. rewrite E1. cbn [bind]. rewrite E2. cbn [bind].
        exact E3.
      + exact T. }
  unfold sync_chain_state. split.
  - intro H.
    apply bind_ok in H. destruct H as (rb & Gb & H).
    apply bind_ok in H. destruct H as (vb & Db & H).
    apply bind_ok in H. destruct H as (b0 & Ib & H).
    apply bind_ok in H. destruct H as (rd & Gd & H).
    apply bind_ok in H. destruct H as (vd & Dd & H).
    apply bind_ok in H. destruct H as (d0 & Id & H).
    apply bind_ok in H. destruct H as (rp & Gp & H).
    apply bind_ok in H. destruct H as (vp0 & Dp & H).
    apply bind_ok in H. destruct H as (vp & Sp & H).
    apply bind_ok in H. destruct H as (p0 & Fp & H).
    injection H as -> -> ->.
    exists vb, vd, vp.
    split; [apply (Q "block"%string [] vb); exists rb, vb; repeat split; assumption|].
    split; [exact Ib|].
    split; [apply (Q "diff"%string [] vd); exists rd, vd; repeat split; assumption|].
    split; [exact Id|].
    split; [|exact Fp].
    apply (Q "prev_hash"%string ["value"%string] vp). exists rp, vp0.
    repeat split; try assumption. cbn [at_path]. rewrite Sp. reflexivity.
  - intros (vb & vd & vp & Nb & Ib & Nd & Id & Np & Fp).
    apply (Q "block"%string [] vb) in Nb. destruct Nb as (rb & ib & Gb & Db & Tb).
    apply (Q "diff"%string [] vd) in Nd. destruct Nd as (rd & id & Gd & Dd & Td).
    apply (Q "prev_hash"%string ["value"%string] vp) in Np.
    destruct Np as (rp & ip & Gp & Dp & Tp).
    cbn [at_path] in Tb, Td, Tp. injection Tb as ->. injection Td as ->.
    rewrite Gb. cbn [bind]. rewrite Db. cbn [bind]. rewrite Ib. cbn [bind].
    rewrite Gd. cbn [bind]. rewrite Dd. cbn [bind]. rewrite Id. cbn [bind].
    rewrite Gp. cbn [bind]. rewrite Dp. cbn [bind].
    destruct (py_subscript ip "value") as [x|]; [|discriminate Tp].
    cbn [bind] in Tp |- *. injection Tp as ->. rewrite Fp. reflexivity.
Qed.

End RpcProperties.

Lemma str_of_int_inj (n n' : Z) : str_of_int n = str_of_int n' -> n = n'.
Proof.
  unfold str_of_int. intro H.
  assert (Hn : forall z, Z.to_int z <> Decimal.Pos Decimal.Nil /\
                         Z.to_int z <> Decimal.Neg Decimal.Nil).
  { intros [|q|q]; cbn [Z.to_int]; split; try discriminate;
      intro E; injection E as E; now apply Unsigned.to_uint_nonnil in E. }
  apply (f_equal NilZero.int_of_string) in H.
  rewrite !NilZero.isi in H by apply Hn.
  injection H as H. now apply DecimalZ.to_int_inj.
Qed.

(** X24: the parameters of a submission identify it: two calls of
    [submit_solution] build the same ["parameters"] list only for the
    same nonce and the same timestamp (each is sent as the decimal text
    of the integer). *)
Theorem invoke_parameters_inj (nonce ts nonce' ts' : Z) :
  invoke_parameters nonce ts = invoke_parameters nonce' ts' ->
  nonce = nonce' /\ ts = ts'.
Proof.
  unfold invoke_parameters. intro H. injection H as Hn Ht.
  split; now apply str_of_int_inj.
Qed.

Lemma invoke_parameters_inj_witness : 7 = 7 /\ 1700000000000 = 1700000000000.
Proof.
  apply (invoke_parameters_inj 7 1700000000000 7 1700000000000). reflexivity.
Defined.

Lemma rpc_call_returns_witness :
  rpc_call error_node "url" "method" PyNone = Raise RuntimeError.
Proof.
  apply (proj2 (rpc_call_returns error_node "url" "method" PyNone)
           [("error", PyStr "boom"); ("result", PyInt 1)]%string).
  - reflexivity.
  - discriminate.
Defined.

Lemma sync_chain_state_returns_witness :
  exists vp,
    node_reports steady_node "c" "prev_hash"
      ["data"; "value"; "value"; "value"]%string vp /\
    fromhex_stub vp = Ok [].
Proof.
  destruct (proj1 (sync_chain_state_returns steady_node int_stub fromhex_stub
                     "c" 5 5 []) eq_refl)
    as (vb & vd & vp & _ & _ & _ & _ & Np & Fp).
  exists vp. split; assumption.
Defined.

Lemma supply_exhausted_code_1_witness :
  supply_exhausted (parse_contract_error exhausted_reply) = true.
Proof.
  apply (proj2 (supply_exhausted_code_1 exhausted_reply)).
  split; [reflexivity|].
  exists (PyInt 1). repeat split; reflexivity.
Defined.

Lemma handle_message_restart_iff_witness :
  handle_message "" (target_event "") = Ok Restart.
Proof.
  apply (proj2 (handle_message_restart_iff "" (target_event ""))).
  apply target_event_is_target.
Defined.
